(** * Meeting recording service: lifecycle, step executor, poller, transcript

    A shallow embedding of the parts of the service that drive a meeting
    through its recording pipeline:

    - [transcriptService.generateTranscriptText] (pure text generation);
    - [databaseService] (the Supabase tables [meetings] and
      [processing_logs]);
    - [meetingService.processStep], [processRecordingUrgently] and
      [retryProcessing];
    - [fileService.streamRecordingToGoogleDrive];
    - the webhook controller entry points;
    - the two copies of [pollStatusJob].

    Asynchronous functions are modelled in a state-and-exception monad
    over a [World] that holds the two tables, a clock and the history of
    every call made to an external collaborator.  The replies of the
    collaborators are taken from an [Env], an arbitrary function of that
    history, so every theorem quantifies over all behaviours of the
    provider, the file store, Slack and the database transport. *)

From Stdlib Require Import ZArith String Ascii List Lia Bool.
From stdpp Require Import base option list gmap strings pretty sorting.

Open Scope string_scope.
Open Scope Z_scope.
Open Scope list_scope.

(** ** JavaScript values *)

Module Js.

(** Strings are held as the bytes of their UTF-8 encoding; a length
    is only compared with 0 or taken of ASCII text, where bytes and
    UTF-16 code units agree.

    [String.prototype.trim] removes from both ends the code points of
    [WhiteSpace] and [LineTerminator] of ECMAScript: U+0009 to U+000D,
    U+0020, U+00A0, U+1680, U+2000 to U+200A, U+2028, U+2029, U+202F,
    U+205F, U+3000 and U+FEFF.  [is_space], [is_space2] and [is_space3]
    recognise their encodings of one, two and three bytes. *)
Definition is_space (c : ascii) : bool :=
  let n := nat_of_ascii c in
  ((n =? 9) || (n =? 10) || (n =? 11) || (n =? 12) || (n =? 13) || (n =? 32))%nat.

(** [C2 A0] is U+00A0. *)
Definition is_space2 (c1 c2 : ascii) : bool :=
  ((nat_of_ascii c1 =? 194) && (nat_of_ascii c2 =? 160))%nat.

(** [E1 9A 80] is U+1680; [E2 80 80] to [E2 80 8A] are U+2000 to
    U+200A; [E2 80 A8], [E2 80 A9] and [E2 80 AF] are U+2028, U+2029
    and U+202F; [E2 81 9F] is U+205F; [E3 80 80] is U+3000;
    [EF BB BF] is U+FEFF. *)
Definition is_space3 (c1 c2 c3 : ascii) : bool :=
  let a := nat_of_ascii c1 in
  let b := nat_of_ascii c2 in
  let c := nat_of_ascii c3 in
  ((a =? 225) && (b =? 154) && (c =? 128)
   || (a =? 226) && (b =? 128)
      && ((128 <=? c) && (c <=? 138) || (c =? 168) || (c =? 169) || (c =? 175))
   || (a =? 226) && (b =? 129) && (c =? 159)
   || (a =? 227) && (b =? 128) && (c =? 128)
   || (a =? 239) && (b =? 187) && (c =? 191))%nat.

(** [s.trimStart()] *)
Fixpoint trimStart (s : string) : string :=
  match s with
  | EmptyString => s
  | String c1 rest1 =>
      if is_space c1 then trimStart rest1 else
      match rest1 with
      | EmptyString => s
      | String c2 rest2 =>
          if is_space2 c1 c2 then trimStart rest2 else
          match rest2 with
          | EmptyString => s
          | String c3 rest3 => if is_space3 c1 c2 c3 then trimStart rest3 else s
          end
      end
  end.

(** Nothing but white space. *)
Definition onlySpace (s : string) : bool :=
  match trimStart s with
  | EmptyString => true
  | String _ _ => false
  end.

(** [s.trimEnd()]: the string is cut where only white space follows. *)
Fixpoint trimEnd (s : string) : string :=
  match s with
  | EmptyString => EmptyString
  | String c rest => if onlySpace s then EmptyString else String c (trimEnd rest)
  end.

(** [s.trim()] *)
Definition trim (s : string) : string := trimEnd (trimStart s).

(** [lines.join(sep)] *)
Fixpoint join (sep : string) (lines : list string) : string :=
  match lines with
  | [] => ""
  | [l] => l
  | l :: rest => l +:+ sep +:+ join sep rest
  end.

(** [s.padStart(2, '0')] *)
Definition padStart2 (s : string) : string :=
  match String.length s with
  | O => "00"
  | S O => "0" +:+ s
  | _ => s
  end.

(** Truthiness of a nullable string: [null], [undefined] and [''] are
    falsy. *)
Definition truthy (s : option string) : bool :=
  match s with
  | Some (String _ _) => true
  | _ => false
  end.

(** [s.substring(0, n)] *)
Fixpoint substring0 (n : nat) (s : string) : string :=
  match n, s with
  | S k, String c rest => String c (substring0 k rest)
  | _, _ => EmptyString
  end.

Definition nl : string := String (ascii_of_nat 10) EmptyString.

(** The double quote character, as a string. *)
Definition dq : string := String (ascii_of_nat 34) EmptyString.

(** [hay.includes(needle)] *)
Fixpoint includes (needle hay : string) : bool :=
  String.prefix needle hay ||
  match hay with
  | EmptyString => false
  | String _ rest => includes needle rest
  end.

End Js.

(** ** transcriptService *)

Module TranscriptService.

Section WithSpeaker.

(** The [speaker] field is only ever used as a key of a [Map]; any
    type of keys with decidable equality will do. *)
Context {Speaker : Type} `{Countable Speaker}.

Record TranscriptEntry := {
  speaker : Speaker;
  text : option string;
  timeStart : option Z;
  timeEnd : option Z
}.

(** [formatTimestamp(timeStart)]: [timeStart] is in milliseconds;
    [%] is the truncating remainder. *)
Definition formatTimestamp (timeStart : option Z) : string :=
  match timeStart with
  | None => "00:00"
  | Some 0 => "00:00"
  | Some ms =>
      let totalSeconds := ms / 1000 in
      let hours := totalSeconds / 3600 in
      let minutes := (Z.rem totalSeconds 3600) / 60 in
      let seconds := Z.rem totalSeconds 60 in
      if 0 <? hours
      then Js.padStart2 (pretty hours) +:+ ":" +:+ Js.padStart2 (pretty minutes)
           +:+ ":" +:+ Js.padStart2 (pretty seconds)
      else Js.padStart2 (pretty minutes) +:+ ":" +:+ Js.padStart2 (pretty seconds)
  end.

(** [!text || text.trim().length === 0] *)
Definition blank (t : option string) : bool :=
  match t with
  | None => true
  | Some s => negb (Js.truthy (Some s)) || (String.length (Js.trim s) =? 0)%nat
  end.

Definition speakerLabel (k : nat) : string := "Speaker " +:+ pretty k.

Definition speakerHeader (timestamp speakerName : string) : string :=
  "[" +:+ timestamp +:+ "] " +:+ speakerName +:+ ":".

(** The body of the [for ... of] loop.  The loop variables
    [currentSpeaker], [speakerCount] and [speakerMap] are threaded
    as arguments; the result lists the strings pushed on
    [transcriptLines], in order. *)
Fixpoint transcriptLoop (entries : list TranscriptEntry)
    (currentSpeaker : option string) (speakerCount : nat)
    (speakerMap : gmap Speaker string) : list string :=
  match entries with
  | [] => []
  | entry :: rest =>
      if blank (text entry) then
        transcriptLoop rest currentSpeaker speakerCount speakerMap
      else
        let '(speakerCount', speakerMap', speakerName) :=
          match speakerMap !! speaker entry with
          | Some name => (speakerCount, speakerMap, name)
          | None =>
              let name := speakerLabel (S speakerCount) in
              (S speakerCount, <[speaker entry := name]> speakerMap, name)
          end in
        let timestamp := formatTimestamp (timeStart entry) in
        let headerLines :=
          if decide (currentSpeaker = Some speakerName) then []
          else (match currentSpeaker with Some _ => [""] | None => [] end)
               ++ [speakerHeader timestamp speakerName] in
        headerLines
        ++ [Js.trim (default "" (text entry)); ""]
        ++ transcriptLoop rest (Some speakerName) speakerCount' speakerMap'
  end.

Definition transcriptTitle : string :=
  Js.nl +:+ "🎙️ TRANSCRIPT" +:+ Js.nl.

Definition noTranscript : string :=
  Js.nl +:+ Js.nl +:+ "⚠️ No transcript data available" +:+ Js.nl +:+ Js.nl.

Definition generateTranscriptText (transcriptArray : list TranscriptEntry) : string :=
  match transcriptArray with
  | [] => noTranscript
  | _ => Js.join Js.nl (transcriptTitle :: transcriptLoop transcriptArray None 0%nat ∅)
  end.

(** *** The labelling, as a specification

    Entries that carry text, the speakers in order of first
    appearance among them, and the rank of a speaker in that
    order. *)
Definition spoken (entries : list TranscriptEntry) : list TranscriptEntry :=
  filter (fun e => blank (text e) = false) entries.

Fixpoint firstAppearances (l : list Speaker) : list Speaker :=
  match l with
  | [] => []
  | s :: rest => s :: filter (fun x => x <> s) (firstAppearances rest)
  end.

Fixpoint position (s : Speaker) (l : list Speaker) : option nat :=
  match l with
  | [] => None
  | x :: rest => if decide (x = s) then Some 0%nat else S <$> position s rest
  end.

(** 1-based rank of [s] by first appearance in [entries]. *)
Definition speakerRank (entries : list TranscriptEntry) (s : Speaker) : nat :=
  match position s (firstAppearances (speaker <$> spoken entries)) with
  | Some i => S i
  | None => 0%nat
  end.

(** Rendering of already labelled turns: a header whenever the
    label changes, then the trimmed text and a blank line. *)
Fixpoint renderTurns (previous : option string)
    (turns : list (string * option Z * string)) : list string :=
  match turns with
  | [] => []
  | (label, ts, body) :: rest =>
      (if decide (previous = Some label) then []
       else (match previous with Some _ => [""] | None => [] end)
            ++ [speakerHeader (formatTimestamp ts) label])
      ++ [body; ""]
      ++ renderTurns (Some label) rest
  end.

Definition labelledTurns (entries : list TranscriptEntry)
    : list (string * option Z * string) :=
  (fun e => (speakerLabel (speakerRank entries (speaker e)),
             timeStart e, Js.trim (default "" (text e)))) <$> spoken entries.

End WithSpeaker.

Arguments TranscriptEntry : clear implicits.

(** Replacing every raw speaker value by another one. *)
Definition renameSpeaker {A B : Type} (rho : A -> B)
    (e : TranscriptEntry A) : TranscriptEntry B :=
  {| speaker := rho (speaker e); text := text e;
     timeStart := timeStart e; timeEnd := timeEnd e |}.

End TranscriptService.

(** ** Errors, values and tables *)

(** A thrown JavaScript error: its [message], the HTTP status of
    [error.response] when the error comes from an HTTP client, and
    [error.code]. *)
Record JsError := {
  message : string;
  response_status : option Z;
  code : option string
}.

Definition Error (msg : string) : JsError :=
  {| message := msg; response_status := None; code := None |}.

Inductive Res (A : Type) :=
| Ok (a : A)
| Throw (e : JsError).
Arguments Ok {A} a.
Arguments Throw {A} e.

Abbreviation Transcript := (list (TranscriptService.TranscriptEntry string)).

(** A column value of the [meetings] table. *)
Inductive Value :=
| VNull
| VText (s : string)
| VTime (t : Z)
| VJson (transcript : Transcript).

(** A row of [meetings], and equally the JavaScript object passed to
    [update]: column name to value. *)
Abbreviation Row := (gmap string Value).

Definition text_of (r : Row) (column : string) : option string :=
  match r !! column with
  | Some (VText s) => Some s
  | _ => None
  end.

Definition time_of (r : Row) (column : string) : option Z :=
  match r !! column with
  | Some (VTime t) => Some t
  | _ => None
  end.

Definition nullable (s : option string) : Value :=
  match s with
  | Some x => VText x
  | None => VNull
  end.

Definition nullableTime (t : option Z) : Value :=
  match t with
  | Some x => VTime x
  | None => VNull
  end.

(** [meeting.status === s] *)
Definition status_is (r : Row) (s : string) : bool :=
  match text_of r "status" with
  | Some x => String.eqb x s
  | None => false
  end.

(** Metadata stored with a processing log. *)
Inductive Metadata :=
| MetaEmpty
| MetaCompleted (attempt : nat) (result : string)
| MetaFailed (attempt maxRetries : nat).

(** A row of [processing_logs]. *)
Record ProcessingLog := {
  log_meeting_id : string;
  log_step : string;
  log_status : string;
  log_metadata : Metadata;
  log_started_at : Z;
  log_completed_at : option Z;
  log_error_message : option string;
  log_error_details : option string
}.

(** What the provider returns for a session. *)
Record SessionData := {
  recordingLink : option string;
  transcript : option Transcript;
  startTimestamp : option Z;
  endTimestamp : option Z
}.

(** [driveResponse.data] of [drive.files.create]. *)
Record DriveData := {
  drive_id : string;
  drive_name : string;
  drive_webViewLink : string;
  drive_size : option Z
}.

(** What [streamRecordingToGoogleDrive] returns. *)
Record DriveFile := {
  file_id : string;
  file_name : string;
  file_webViewLink : string;
  file_size : option Z;
  file_uploadTime : Z;
  file_mimeType : string
}.

Record HttpStream := {
  content_type : option string;
  content_length : option Z
}.

Record TranscriptDoc := {
  doc_id : string;
  doc_webViewLink : string
}.

Record SlackResult := {
  messageTs : string;
  channel : string
}.

(** ** Calls to the outside world *)

Inductive Level := error | warn | info.

(** Statements sent to Supabase. *)
Inductive DbOp :=
| UpdateMeeting (meetingId : string) (updates : Row)
| SelectMeetingById (meetingId : string)
| SelectMeetingBySessionId (sessionId : string)
| SelectMeetingsByStatus (status : string) (limit : nat)
| InsertProcessingLog (logId : nat) (row : ProcessingLog)
| UpdateProcessingLog (logId : nat) (status : string) (metadata : Metadata)
    (errorMessage errorDetails : option string)
| HealthCheck.

(** A promise that is started and not awaited; only a [.catch] that
    logs [onError] is attached to it. *)
Inductive Task :=
| ProcessRecordingUrgently (meetingId : string) (recordingUrl : option string)
    (sessionId : string) (onError : string)
| RetryProcessing (meetingId sessionId : string) (onError : string).

Inductive Event :=
| EvLog (level : Level) (msg : string)
| EvDb (op : DbOp)
| EvGetSession (sessionId : string)
| EvHttpGet (url : string)
| EvDriveCreate (name : string)
| EvDrivePermission (fileId : string)
| EvDocsCreate (title : string) (transcriptText : string)
| EvSlackPost (text : string) (details : list string)
| EvSleep (ms : Z)
| EvSpawn (task : Task).

(** The collaborators.  Each reply is a function of the history of
    calls, most recent first; the head of the history is the call being
    answered. *)
Class Env := {
  db_fault : list Event -> option JsError;
  session_reply : list Event -> Res SessionData;
  http_reply : list Event -> Res HttpStream;
  drive_create_reply : list Event -> Res DriveData;
  drive_permission_reply : list Event -> option JsError;
  docs_reply : list Event -> Res TranscriptDoc;
  slack_reply : list Event -> Res SlackResult
}.

Record World := {
  meetings : gmap string Row;
  processing_logs : gmap nat ProcessingLog;
  history : list Event;
  now : Z
}.

(** ** The monad of asynchronous functions *)

Definition M (A : Type) : Type := World -> Res A * World.

Definition ret {A} (a : A) : M A := fun w => (Ok a, w).

Definition throw {A} (e : JsError) : M A := fun w => (Throw e, w).

Definition bind {A B} (m : M A) (k : A -> M B) : M B :=
  fun w =>
    match m w with
    | (Ok a, w') => k a w'
    | (Throw e, w') => (Throw e, w')
    end.

(** [try { m } catch (e) { handler e }] and [m.catch(handler)] *)
Definition tryCatch {A} (m : M A) (handler : JsError -> M A) : M A :=
  fun w =>
    match m w with
    | (Ok a, w') => (Ok a, w')
    | (Throw e, w') => handler e w'
    end.

Declare Scope async_scope.
Delimit Scope async_scope with async.
Notation "x <- m ;; k" := (bind m (fun x => k))
  (at level 100, m at next level, right associativity) : async_scope.
Notation "m ;;; k" := (bind m (fun _ => k))
  (at level 100, right associativity) : async_scope.
Open Scope async_scope.

Definition emit (ev : Event) : M unit :=
  fun w => (Ok tt, {| meetings := meetings w; processing_logs := processing_logs w;
                      history := ev :: history w; now := now w |}).

(** Reading the state. *)
Definition readWorld {A} (g : World -> A) : M A := fun w => (Ok (g w), w).

(** [Date.now()] and [new Date()] *)
Definition dateNow : M Z := readWorld now.

(** The answer of a collaborator to the call at the head of the
    history. *)
Definition reply {A} (answer : list Event -> Res A) : M A :=
  fun w => (answer (history w), w).

(** A call that returns nothing, or fails. *)
Definition fault (answer : list Event -> option JsError) : M unit :=
  fun w =>
    match answer (history w) with
    | Some e => (Throw e, w)
    | None => (Ok tt, w)
    end.

(** A statement that runs on the two tables and on nothing else. *)
Definition onTables {A}
    (statement : World -> Res A * gmap string Row * gmap nat ProcessingLog) : M A :=
  fun w =>
    let '(r, ms, ls) := statement w in
    (r, {| meetings := ms; processing_logs := ls; history := history w; now := now w |}).

(** [await new Promise(resolve => setTimeout(resolve, ms))] *)
Definition sleep (ms : Z) : M unit :=
  fun w => (Ok tt, {| meetings := meetings w; processing_logs := processing_logs w;
                      history := EvSleep ms :: history w; now := now w + ms |}).

(** Calling an async function without awaiting it. *)
Definition spawn (t : Task) : M unit := emit (EvSpawn t).

(** ** logger *)

Module logger.
Definition log (level : Level) (msg : string) : M unit := emit (EvLog level msg).
Definition logMeetingEvent (meetingId event : string) : M unit :=
  log info ("Meeting " +:+ event).
Definition logProcessingStep (meetingId step status : string) : M unit :=
  log info ("Processing step " +:+ step +:+ ": " +:+ status).
Definition logChatterBoxEvent (sessionId event status : string) : M unit :=
  log info ("ChatterBox " +:+ event +:+ ": " +:+ status).
Definition logFileOperation (operation status : string) : M unit :=
  log info ("File operation " +:+ operation +:+ ": " +:+ status).
Definition logSlackNotification (type status : string) : M unit :=
  log info ("Slack notification " +:+ type +:+ ": " +:+ status).
End logger.

(** ** databaseService *)

Module databaseService.

(** The error of [.single()] when the filter matches no row, or more
    than one. *)
Definition PGRST116 : JsError :=
  {| message := "JSON object requested, multiple (or no) rows returned";
     response_status := None; code := Some "PGRST116" |}.

(** Violation of [processing_logs.meeting_id REFERENCES meetings(id)]. *)
Definition foreignKeyViolation : JsError :=
  {| message := "insert or update on table processing_logs violates foreign key constraint";
     response_status := None; code := Some "23503" |}.

Definition createdAt (r : Row) : Z := default 0 (time_of r "created_at").

Definition newestFirst (r1 r2 : Row) : Prop := createdAt r2 <= createdAt r1.

#[global] Instance newestFirst_dec r1 r2 : Decision (newestFirst r1 r2).
Proof. unfold newestFirst. apply _. Defined.

Definition rowsWhere (column : string) (v : string) (ms : gmap string Row) : list Row :=
  (map_to_list (filter (fun kr => text_of kr.2 column = Some v) ms)).*2.

(** [UPDATE meetings SET ... WHERE id = meetingId], one row expected. *)
Definition updateRow (meetingId : string) (updates : Row) : M Row :=
  onTables (fun w =>
    match meetings w !! meetingId with
    | Some row =>
        let row' := updates ∪ row in
        (Ok row', <[meetingId := row']> (meetings w), processing_logs w)
    | None => (Throw PGRST116, meetings w, processing_logs w)
    end).

Definition selectById (meetingId : string) : M Row :=
  onTables (fun w =>
    match meetings w !! meetingId with
    | Some row => (Ok row, meetings w, processing_logs w)
    | None => (Throw PGRST116, meetings w, processing_logs w)
    end).

Definition selectBySessionId (sessionId : string) : M Row :=
  onTables (fun w =>
    match rowsWhere "chatterbox_session_id" sessionId (meetings w) with
    | [row] => (Ok row, meetings w, processing_logs w)
    | _ => (Throw PGRST116, meetings w, processing_logs w)
    end).

Definition selectByStatus (status : string) (limit : nat) : M (list Row) :=
  onTables (fun w =>
    (Ok (take limit (merge_sort newestFirst (rowsWhere "status" status (meetings w)))),
     meetings w, processing_logs w)).

Definition insertLog (logId : nat) (logData : ProcessingLog) : M (nat * ProcessingLog) :=
  onTables (fun w =>
    match meetings w !! log_meeting_id logData with
    | Some _ =>
        (Ok (logId, logData), meetings w, <[logId := logData]> (processing_logs w))
    | None => (Throw foreignKeyViolation, meetings w, processing_logs w)
    end).

(** [UPDATE processing_logs SET status, metadata, completed_at (and
    the error columns when given) WHERE id = logId]. *)
Definition updateLog (logId : nat) (status : string) (metadata : Metadata)
    (completedAt : Z) (errorMessage errorDetails : option string) : M ProcessingLog :=
  onTables (fun w =>
    match processing_logs w !! logId with
    | Some row =>
        let row' :=
          {| log_meeting_id := log_meeting_id row; log_step := log_step row;
             log_status := status; log_metadata := metadata;
             log_started_at := log_started_at row;
             log_completed_at := Some completedAt;
             log_error_message :=
               if Js.truthy errorMessage then errorMessage else log_error_message row;
             log_error_details :=
               if Js.truthy errorDetails then errorDetails else log_error_details row |} in
        (Ok row', meetings w, <[logId := row']> (processing_logs w))
    | None => (Throw PGRST116, meetings w, processing_logs w)
    end).

Section WithEnv.
Context {E : Env}.

(** One round trip to Supabase: the statement is sent; the transport
    may fail; otherwise the statement runs on the tables. *)
Definition supabase {A} (op : DbOp) (statement : M A) : M A :=
  emit (EvDb op) ;;;
  fault db_fault ;;;
  statement.

Definition updateMeeting (meetingId : string) (updates : Row) : M Row :=
  tryCatch
    (t <- dateNow ;;
     let updates' := <["updated_at" := VTime t]> updates in
     data <- supabase (UpdateMeeting meetingId updates') (updateRow meetingId updates') ;;
     logger.log info "Meeting updated in database" ;;;
     ret data)
    (fun e => logger.log error "Failed to update meeting" ;;; throw e).

Definition getMeetingById (meetingId : string) : M (option Row) :=
  tryCatch
    (tryCatch
       (data <- supabase (SelectMeetingById meetingId) (selectById meetingId) ;;
        ret (Some data))
       (fun e => if decide (code e = Some "PGRST116") then ret None else throw e))
    (fun e => logger.log error "Failed to get meeting by ID" ;;; throw e).

Definition getMeetingBySessionId (sessionId : string) : M (option Row) :=
  tryCatch
    (tryCatch
       (data <- supabase (SelectMeetingBySessionId sessionId)
                  (selectBySessionId sessionId) ;;
        ret (Some data))
       (fun e => if decide (code e = Some "PGRST116") then ret None else throw e))
    (fun e => logger.log error "Failed to get meeting by session ID" ;;; throw e).

(** [uuidv4()] is the fresh key [fresh (dom processing_logs)]. *)
Definition logProcessingStep (meetingId step status : string) (metadata : Metadata)
    (errorMessage errorDetails : option string) : M (nat * ProcessingLog) :=
  tryCatch
    (logId <- readWorld (fun w => fresh (dom (processing_logs w))) ;;
     t <- dateNow ;;
     let logData :=
       {| log_meeting_id := meetingId; log_step := step; log_status := status;
          log_metadata := metadata; log_started_at := t;
          log_completed_at :=
            if String.eqb status "completed" || String.eqb status "failed"
            then Some t else None;
          log_error_message := if Js.truthy errorMessage then errorMessage else None;
          log_error_details := if Js.truthy errorDetails then errorDetails else None |} in
     data <- supabase (InsertProcessingLog logId logData) (insertLog logId logData) ;;
     logger.logProcessingStep meetingId step status ;;;
     ret data)
    (fun e => logger.log error "Failed to log processing step" ;;; throw e).

Definition updateProcessingStep (logId : nat) (status : string) (metadata : Metadata)
    (errorMessage errorDetails : option string) : M ProcessingLog :=
  tryCatch
    (t <- dateNow ;;
     supabase (UpdateProcessingLog logId status metadata errorMessage errorDetails)
       (updateLog logId status metadata t errorMessage errorDetails))
    (fun e => logger.log error "Failed to update processing step" ;;; throw e).

Definition getMeetingsByStatus (status : string) (limit : nat) : M (list Row) :=
  tryCatch
    (supabase (SelectMeetingsByStatus status limit) (selectByStatus status limit))
    (fun e => logger.log error "Failed to get meetings by status" ;;; throw e).

Definition healthCheck : M unit :=
  tryCatch
    (supabase HealthCheck (ret tt))
    (fun e => logger.log error "Database health check failed" ;;; throw e).

End WithEnv.

End databaseService.

(** ** config/chatterbox *)

Module chatterboxConfig.
Section WithEnv.
Context {E : Env}.

Definition getSessionData (sessionId : string) : M SessionData :=
  tryCatch
    (logger.logChatterBoxEvent "get_session" "started" "" ;;;
     emit (EvGetSession sessionId) ;;;
     data <- reply session_reply ;;
     logger.logChatterBoxEvent "get_session" "success" "" ;;;
     ret data)
    (fun e => logger.log error "Failed to get session data from ChatterBox" ;;; throw e).

(** Deprecated check: no request is made, the answer is [true]. *)
Definition isRecordingUrlValid (recordingUrl : string) : M bool :=
  logger.log warn "URL validation is deprecated - always returning true" ;;;
  ret true.

End WithEnv.
End chatterboxConfig.

(** ** services/chatterboxService *)

Module chatterboxService.
Section WithEnv.
Context {E : Env}.

Definition getSessionData (sessionId : string) : M SessionData :=
  tryCatch
    (logger.logChatterBoxEvent sessionId "get_session_data" "started" ;;;
     sessionData <- chatterboxConfig.getSessionData sessionId ;;
     logger.logChatterBoxEvent sessionId "get_session_data" "success" ;;;
     ret sessionData)
    (fun e => logger.log error "Failed to get session data from ChatterBox" ;;; throw e).

Definition isRecordingUrlValid (recordingUrl : string) : M bool :=
  tryCatch
    (isValid <- chatterboxConfig.isRecordingUrlValid recordingUrl ;;
     logger.log info "Recording URL validation result" ;;;
     ret isValid)
    (fun e => logger.log error "Failed to validate recording URL" ;;; ret false).

End WithEnv.
End chatterboxService.

(** ** services/fileService *)

Module fileService.

Definition expiredMessage (status : Z) : string :=
  "Recording URL has expired or is not accessible (" +:+ pretty status +:+ ")".

Definition timeoutMessage : string :=
  "Upload timeout - recording URL may have expired during transfer".

Section WithEnv.
Context {E : Env}.

Definition makeFileShareable (fileId : string) : M bool :=
  tryCatch
    (emit (EvDrivePermission fileId) ;;;
     fault drive_permission_reply ;;;
     logger.log info "File made shareable" ;;;
     ret true)
    (fun e => logger.log error "Failed to make file shareable" ;;; ret false).

Definition streamRecordingToGoogleDrive (recordingUrl meetingTitle : string)
    : M DriveFile :=
  startTime <- dateNow ;;
  tryCatch
    (logger.logFileOperation "stream_to_drive" "started" ;;;
     emit (EvHttpGet recordingUrl) ;;;
     response <- reply http_reply ;;
     let contentType :=
       if Js.truthy (content_type response)
       then default "" (content_type response) else "video/x-matroska" in
     logger.logFileOperation "stream_to_drive" "streaming" ;;;
     let fileName := "Meeting Recording - " +:+ meetingTitle +:+ ".mkv" in
     emit (EvDriveCreate fileName) ;;;
     driveResponse <- reply drive_create_reply ;;
     t <- dateNow ;;
     let uploadTime := t - startTime in
     logger.logFileOperation "stream_to_drive" "completed" ;;;
     makeFileShareable (drive_id driveResponse) ;;;
     ret {| file_id := drive_id driveResponse;
            file_name := drive_name driveResponse;
            file_webViewLink := drive_webViewLink driveResponse;
            file_size := drive_size driveResponse;
            file_uploadTime := uploadTime;
            file_mimeType := contentType |})
    (fun e =>
       logger.log error "Failed to stream recording to Google Drive" ;;;
       if decide (response_status e = Some 403 \/ response_status e = Some 404)
       then throw (Error (expiredMessage (default 0 (response_status e))))
       else if decide (code e = Some "ECONNABORTED")
       then throw (Error timeoutMessage)
       else throw e).

End WithEnv.
End fileService.

(** ** services/transcriptService, the document *)

Module transcriptDocument.

Definition noTranscriptText : string :=
  Js.nl +:+ Js.nl +:+ "⚠️ No transcript data available" +:+ Js.nl +:+ Js.nl
  +:+ "The recording was processed successfully, but no transcript data was provided by the transcription service."
  +:+ Js.nl +:+ Js.nl.

(** The transcript part of [generateDocumentContent]. *)
Definition transcriptSection (transcriptArray : option Transcript) : string :=
  match transcriptArray with
  | Some (e :: rest) => TranscriptService.generateTranscriptText (e :: rest)
  | _ => noTranscriptText
  end.

Section WithEnv.
Context {E : Env}.

(** The five Google calls (create the document, insert its content,
    move it, share it, read it back) are one exchange here: any of
    them failing fails the whole, with that error. *)
Definition createTranscriptDocument (meeting : Row) (transcriptArray : option Transcript)
    : M TranscriptDoc :=
  tryCatch
    (logger.log info "Creating transcript document" ;;;
     let docTitle := "Meeting Transcript - " +:+ default "null" (text_of meeting "meeting_title") in
     emit (EvDocsCreate docTitle (transcriptSection transcriptArray)) ;;;
     doc <- reply docs_reply ;;
     logger.log info "Transcript document created successfully" ;;;
     ret doc)
    (fun e => logger.log error "Failed to create transcript document" ;;; throw e).

End WithEnv.
End transcriptDocument.

(** ** services/notificationService *)

Module notificationService.

Record CriticalError := {
  ce_meetingId : string;
  ce_step : string;
  ce_error : string
}.

Record AlertResult := {
  alert_success : bool;
  alert_error : option string
}.

Definition alertText : string :=
  "🚨 CRITICAL: Meeting processing failure requires immediate attention".

Section WithEnv.
Context {E : Env}.

Definition postMessage (text : string) (details : list string) : M SlackResult :=
  emit (EvSlackPost text details) ;;;
  reply slack_reply.

Definition sendMeetingCompletedNotification (meeting : Row) (driveFile : DriveFile)
    (transcriptDoc : TranscriptDoc) : M SlackResult :=
  tryCatch
    (logger.logSlackNotification "meeting_completed" "started" ;;;
     let title := default "null" (text_of meeting "meeting_title") in
     response <- postMessage ("✅ Meeting recording complete: " +:+ title)
                   [title; file_webViewLink driveFile; doc_webViewLink transcriptDoc] ;;
     logger.logSlackNotification "meeting_completed" "success" ;;;
     ret response)
    (fun e => logger.log error "Failed to send meeting completed notification" ;;; throw e).

Definition sendCriticalAlert (criticalError : CriticalError) : M AlertResult :=
  tryCatch
    (logger.logSlackNotification "critical_alert" "started" ;;;
     response <- postMessage alertText
                   [ce_meetingId criticalError; ce_step criticalError;
                    ce_error criticalError] ;;
     logger.logSlackNotification "critical_alert" "success" ;;;
     ret {| alert_success := true; alert_error := None |})
    (fun e =>
       logger.log error "Failed to send critical alert" ;;;
       ret {| alert_success := false; alert_error := Some (message e) |}).

End WithEnv.
End notificationService.

(** ** middlewares/errorHandler *)

Module errorHandler.
Import notificationService.
Section WithEnv.
Context {E : Env}.

Definition handleCriticalError (meetingId step : string) (e : JsError)
    : M CriticalError :=
  let criticalError :=
    {| ce_meetingId := meetingId; ce_step := step; ce_error := message e |} in
  logger.log error "🚨 CRITICAL ERROR - Immediate attention required" ;;;
  tryCatch
    (sendCriticalAlert criticalError ;;; ret tt)
    (fun notificationError =>
       logger.log error "Failed to send critical error notification") ;;;
  ret criticalError.

End WithEnv.
End errorHandler.

(** ** services/meetingService *)

(** [typeof result === 'object' ? 'object' : String(result)] *)
Class Describe (A : Type) := describe : A -> string.
#[global] Instance describe_bool : Describe bool :=
  fun b => if b then "true" else "false".
#[global] Instance describe_session : Describe SessionData := fun _ => "object".
#[global] Instance describe_drive_file : Describe DriveFile := fun _ => "object".
#[global] Instance describe_doc : Describe TranscriptDoc := fun _ => "object".
#[global] Instance describe_slack : Describe SlackResult := fun _ => "object".

Module meetingService.

Record ProcessingResult := {
  success : bool;
  result_meetingId : string;
  result_sessionId : string;
  processingTime : Z;
  driveFile : DriveFile;
  transcriptDoc : TranscriptDoc;
  slackResult : SlackResult
}.

(** [Math.pow(2, attempt) * 1000] *)
Definition backoffMs (attempt : nat) : Z := 2 ^ Z.of_nat attempt * 1000.

(** Reading a property of [undefined]. *)
Definition defined {A} (property : string) (v : option A) : M A :=
  match v with
  | Some a => ret a
  | None => throw (Error ("Cannot read properties of undefined (reading '"
                          +:+ property +:+ "')"))
  end.

Section WithEnv.
Context {E : Env}.

Section ProcessStep.
Context {A : Type} `{Describe A}.
Variables (meetingId stepName : string) (processingFunction : M A)
          (maxRetries : nat) (logId : nat).

(** The [for] loop of [processStep], from [attempt] on;
    [remaining] counts the iterations left, [attempt <= maxRetries]
    holding exactly when it is positive.  [None] is the
    [undefined] returned when the loop ends without a [return]. *)
Fixpoint attemptLoop (remaining attempt : nat) : M (option A) :=
  match remaining with
  | O => ret None
  | S remaining' =>
      tryCatch
        (logger.logProcessingStep meetingId stepName "attempting" ;;;
         result <- processingFunction ;;
         databaseService.updateProcessingStep logId "completed"
           (MetaCompleted attempt (Js.substring0 100 (describe result))) None None ;;;
         logger.logProcessingStep meetingId stepName "completed" ;;;
         ret (Some result))
        (fun e =>
           logger.log error ("Step " +:+ stepName +:+ " failed (attempt " +:+ pretty attempt
                             +:+ "/" +:+ pretty maxRetries +:+ ")") ;;;
           if (attempt =? maxRetries)%nat then
             databaseService.updateProcessingStep logId "failed"
               (MetaFailed attempt maxRetries) (Some (message e)) (Some "stack") ;;;
             throw e
           else
             let backoff := backoffMs attempt in
             logger.log info ("Retrying step " +:+ stepName +:+ " in " +:+ pretty backoff
                              +:+ "ms") ;;;
             sleep backoff ;;;
             attemptLoop remaining' (S attempt))
  end.
End ProcessStep.

Definition processStep {A : Type} `{Describe A} (meetingId stepName : string)
    (processingFunction : M A) (maxRetries : nat) : M (option A) :=
  log <- databaseService.logProcessingStep meetingId stepName "started"
           MetaEmpty None None ;;
  attemptLoop meetingId stepName processingFunction maxRetries log.1 maxRetries 1%nat.

Definition failedUpdates (t : Z) : Row :=
  <["status" := VText "failed"]> (<["processing_completed_at" := VTime t]> ∅).

Definition processingUpdates (recordingUrl : option string) (t : Z) : Row :=
  <["status" := VText "processing"]>
    (<["recording_s3_url" := nullable recordingUrl]>
       (<["processing_started_at" := VTime t]> ∅)).

Definition completedUpdates (driveFile : DriveFile) (transcriptDoc : TranscriptDoc)
    (transcriptData : SessionData) (slackResult : SlackResult) (t : Z) : Row :=
  <["status" := VText "completed"]>
    (<["google_drive_recording_id" := VText (file_id driveFile)]>
    (<["google_drive_recording_url" := VText (file_webViewLink driveFile)]>
    (<["google_drive_transcript_id" := VText (doc_id transcriptDoc)]>
    (<["google_drive_transcript_url" := VText (doc_webViewLink transcriptDoc)]>
    (<["recording_start_timestamp" := nullableTime (startTimestamp transcriptData)]>
    (<["recording_end_timestamp" := nullableTime (endTimestamp transcriptData)]>
    (<["transcript_data" := match transcript transcriptData with
                            | Some l => VJson l
                            | None => VNull
                            end]>
    (<["slack_message_ts" := VText (messageTs slackResult)]>
    (<["processing_completed_at" := VTime t]> ∅))))))))).

(** The [try] block of [processRecordingUrgently]. *)
Definition processRecordingUrgently_try (startTime : Z) (meetingId : string)
    (recordingUrl : option string) (sessionId : string) : M ProcessingResult :=
  logger.logMeetingEvent meetingId "urgent_processing_started" ;;;
  t <- dateNow ;;
  databaseService.updateMeeting meetingId (processingUpdates recordingUrl t) ;;;
  found <- databaseService.getMeetingById meetingId ;;
  match found with
  | None => throw (Error ("Meeting not found: " +:+ meetingId))
  | Some meeting =>
      (* Step 1 *)
      fetched <-
        (if negb (Js.truthy recordingUrl) then
           logger.logProcessingStep meetingId "fetch_session_data" "started" ;;;
           r <- processStep meetingId "fetch_session_data"
                  (chatterboxService.getSessionData sessionId) 3 ;;
           sessionData <- defined "recordingLink" r ;;
           if negb (Js.truthy (recordingLink sessionData))
           then throw (Error "No recording URL available from ChatterBox session")
           else ret (default "" (recordingLink sessionData), Some sessionData)
         else ret (default "" recordingUrl, None)) ;;
      let processedRecordingUrl := fetched.1 in
      (* Step 2 *)
      logger.logProcessingStep meetingId "validate_recording_url" "started" ;;;
      isUrlValid <- processStep meetingId "validate_recording_url"
                      (chatterboxService.isRecordingUrlValid processedRecordingUrl) 3 ;;
      if negb (default false isUrlValid)
      then throw (Error "Recording URL has expired or is not accessible")
      else
        (* Step 3 *)
        logger.logProcessingStep meetingId "stream_to_drive" "started" ;;;
        r3 <- processStep meetingId "stream_to_drive"
                (fileService.streamRecordingToGoogleDrive processedRecordingUrl
                   (default "null" (text_of meeting "meeting_title"))) 3 ;;
        (* Step 4 *)
        r4 <- match fetched.2 with
              | Some sessionData => ret (Some sessionData)
              | None =>
                  logger.logProcessingStep meetingId "fetch_transcript" "started" ;;;
                  processStep meetingId "fetch_transcript"
                    (chatterboxService.getSessionData sessionId) 3
              end ;;
        (* Step 5 *)
        logger.logProcessingStep meetingId "create_transcript" "started" ;;;
        transcriptData <- defined "transcript" r4 ;;
        r5 <- processStep meetingId "create_transcript"
                (transcriptDocument.createTranscriptDocument meeting
                   (transcript transcriptData)) 3 ;;
        (* Step 6 *)
        logger.logProcessingStep meetingId "send_notification" "started" ;;;
        r6 <- processStep meetingId "send_notification"
                (driveFile <- defined "size" r3 ;;
                 transcriptDoc <- defined "webViewLink" r5 ;;
                 notificationService.sendMeetingCompletedNotification
                   meeting driveFile transcriptDoc) 3 ;;
        (* Step 7 *)
        driveFile <- defined "id" r3 ;;
        transcriptDoc <- defined "id" r5 ;;
        slackResult <- defined "messageTs" r6 ;;
        t7 <- dateNow ;;
        databaseService.updateMeeting meetingId
          (completedUpdates driveFile transcriptDoc transcriptData slackResult t7) ;;;
        t8 <- dateNow ;;
        logger.logMeetingEvent meetingId "urgent_processing_completed" ;;;
        ret {| success := true; result_meetingId := meetingId;
               result_sessionId := sessionId; processingTime := t8 - startTime;
               driveFile := driveFile; transcriptDoc := transcriptDoc;
               slackResult := slackResult |}
  end.

(** The [catch] block of [processRecordingUrgently]. *)
Definition processRecordingUrgently_catch (meetingId : string) (e : JsError)
    : M ProcessingResult :=
  t <- dateNow ;;
  tryCatch
    (databaseService.updateMeeting meetingId (failedUpdates t) ;;; ret tt)
    (fun dbError => logger.log error "Failed to update meeting status to failed") ;;;
  errorHandler.handleCriticalError meetingId "urgent_processing" e ;;;
  logger.logMeetingEvent meetingId "urgent_processing_failed" ;;;
  throw e.

Definition processRecordingUrgently (meetingId : string)
    (recordingUrl : option string) (sessionId : string) : M ProcessingResult :=
  startTime <- dateNow ;;
  tryCatch
    (processRecordingUrgently_try startTime meetingId recordingUrl sessionId)
    (processRecordingUrgently_catch meetingId).

Definition retryProcessing (meetingId sessionId : string) : M ProcessingResult :=
  tryCatch
    (logger.logMeetingEvent meetingId "retry_processing_started" ;;;
     t <- dateNow ;;
     databaseService.updateMeeting meetingId
       (<["status" := VText "processing"]>
          (<["processing_started_at" := VTime t]> ∅)) ;;;
     sessionData <- chatterboxService.getSessionData sessionId ;;
     if Js.truthy (recordingLink sessionData) then
       isValid <- chatterboxService.isRecordingUrlValid
                    (default "" (recordingLink sessionData)) ;;
       if isValid then
         processRecordingUrgently meetingId (recordingLink sessionData) sessionId
       else throw (Error "Recording URL has expired and cannot be retried")
     else throw (Error "No recording URL available for retry"))
    (fun e =>
       logger.log error "Retry processing failed" ;;;
       databaseService.updateMeeting meetingId (<["status" := VText "failed"]> ∅) ;;;
       throw e).

Definition manualProcessMeeting (meetingId sessionId : string) : M ProcessingResult :=
  tryCatch
    (logger.logMeetingEvent meetingId "manual_processing_started" ;;;
     sessionData <- chatterboxService.getSessionData sessionId ;;
     processRecordingUrgently meetingId (recordingLink sessionData) sessionId)
    (fun e => logger.log error "Manual processing failed" ;;; throw e).

(** What a started, un-awaited promise does when it runs: the call,
    with the [.catch] that logs. *)
Definition runTask (t : Task) : M unit :=
  match t with
  | ProcessRecordingUrgently meetingId recordingUrl sessionId onError =>
      tryCatch (processRecordingUrgently meetingId recordingUrl sessionId ;;; ret tt)
               (fun e => logger.log error onError)
  | RetryProcessing meetingId sessionId onError =>
      tryCatch (retryProcessing meetingId sessionId ;;; ret tt)
               (fun e => logger.log error onError)
  end.

End WithEnv.
End meetingService.

(** ** The loop [for (const x of l) { await body(x) }] *)

Fixpoint forOf {A} (l : list A) (body : A -> M unit) : M unit :=
  match l with
  | [] => ret tt
  | x :: rest => body x ;;; forOf rest body
  end.

(** ** controllers/webhookController

    The validators of express ([body(...)], [param(...)]) run before the
    handlers and are not part of them; a handler returns the response it
    sends. *)

Module webhookController.

Record Payload := {
  payload_sessionId : option string;
  payload_recordingUrl : option string;
  payload_timestamp : option Z
}.

Record Response := {
  http_status : Z;
  http_success : bool;
  http_text : string
}.

Definition respond (status : Z) (ok : bool) (text : string) : M Response :=
  ret {| http_status := status; http_success := ok; http_text := text |}.

(** [chatterboxConfig.validateWebhookPayload], for a body that has
    its [type] and [payload]. *)
Definition validateWebhookPayload (type : string) (payload : Payload) : M bool :=
  if String.eqb type "finished"
     && negb (Js.truthy (payload_sessionId payload)
              && match payload_timestamp payload with
                 | Some t => negb (t =? 0)
                 | None => false
                 end)
  then throw (Error "Invalid finished webhook payload: missing fields")
  else ret true.

Section WithEnv.
Context {E : Env}.

Definition handleChatterBoxWebhook (type : string) (payload : Payload) : M Response :=
  logger.logChatterBoxEvent (default "unknown" (payload_sessionId payload))
    "webhook_received" "" ;;;
  tryCatch
    (validateWebhookPayload type payload ;;;
     let sessionId := default "" (payload_sessionId payload) in
     if String.eqb type "finished" then
       found <- databaseService.getMeetingBySessionId sessionId ;;
       match found with
       | None =>
           logger.log warn "Meeting not found for ChatterBox session" ;;;
           respond 404 false "Meeting not found for session ID"
       | Some meeting =>
           let meetingId := default "" (text_of meeting "id") in
           logger.logMeetingEvent meetingId "recording_finished" ;;;
           spawn (ProcessRecordingUrgently meetingId
                    (if Js.truthy (payload_recordingUrl payload)
                     then payload_recordingUrl payload else None)
                    sessionId
                    "URGENT: Recording processing failed within 5-minute window") ;;;
           respond 200 true "Recording processing started"
       end
     else if String.eqb type "started" then
       found <- databaseService.getMeetingBySessionId sessionId ;;
       match found with
       | Some meeting =>
           let meetingId := default "" (text_of meeting "id") in
           databaseService.updateMeeting meetingId (<["status" := VText "recording"]> ∅) ;;;
           logger.logMeetingEvent meetingId "recording_started"
       | None => ret tt
       end ;;;
       respond 200 true "Recording started notification received"
     else
       logger.log warn "Unknown ChatterBox webhook type" ;;;
       respond 200 true "Webhook received but not processed")
    (fun e =>
       logger.log error "ChatterBox webhook processing failed" ;;;
       respond 500 false "Webhook processing failed").

Definition retryMeetingProcessing (id : string) : M Response :=
  tryCatch
    (found <- databaseService.getMeetingById id ;;
     match found with
     | None => respond 404 false "Meeting not found"
     | Some meeting =>
         if status_is meeting "completed" then
           respond 400 false "Meeting processing already completed"
         else if status_is meeting "processing" then
           respond 400 false "Meeting is currently being processed"
         else
           logger.logMeetingEvent id "retry_requested" ;;;
           if Js.truthy (text_of meeting "chatterbox_session_id") then
             spawn (RetryProcessing id
                      (default "" (text_of meeting "chatterbox_session_id"))
                      "Retry processing failed") ;;;
             respond 200 true "Meeting processing retry started"
           else
             respond 400 false "No ChatterBox session ID available for retry"
     end)
    (fun e =>
       logger.log error "Failed to retry meeting processing" ;;;
       respond 500 false "Failed to retry meeting processing").

End WithEnv.
End webhookController.

(** ** jobs/pollStatusJob

    Two copies of the job are in the repository.  What they share: *)

Module pollCommon.

(** [Math.floor((Date.now() - new Date(meeting.updated_at).getTime())
    / (1000 * 60))]; [None] is the [NaN] of a row without
    [updated_at]. *)
Definition statusAgeMinutes (nowMs : Z) (meeting : Row) : option Z :=
  match time_of meeting "updated_at" with
  | Some t => Some ((nowMs - t) / (1000 * 60))
  | None => None
  end.

(** [statusAgeMinutes > bound] *)
Definition olderThan (bound : Z) (age : option Z) : bool :=
  match age with
  | Some a => bound <? a
  | None => false
  end.

(** [statusAgeMinutes % 10 === 0] *)
Definition onTenthMinute (age : option Z) : bool :=
  match age with
  | Some a => Z.rem a 10 =? 0
  | None => false
  end.

Definition meetingId (meeting : Row) : string := default "" (text_of meeting "id").

Definition sessionId (meeting : Row) : string :=
  default "" (text_of meeting "chatterbox_session_id").

End pollCommon.

(** The copy at [src/jobs/pollStatusJob.js]. *)
Module pollStatusJob.
Import pollCommon.
Section WithEnv.
Context {E : Env}.

Definition checkMeetingStatus (meeting : Row) : M unit :=
  tryCatch
    (if negb (Js.truthy (text_of meeting "chatterbox_session_id")) then
       logger.log warn "Meeting has no ChatterBox session ID"
     else
       t <- dateNow ;;
       let age := statusAgeMinutes t meeting in
       (if status_is meeting "bot_joined" && olderThan 10 age then
          logger.log warn "Meeting stuck in bot_joined status" ;;;
          tryCatch
            (sessionData <- chatterboxService.getSessionData (sessionId meeting) ;;
             if Js.truthy (recordingLink sessionData) then
               logger.log info "Found recording for stuck meeting, starting processing" ;;;
               spawn (ProcessRecordingUrgently (meetingId meeting)
                        (recordingLink sessionData) (sessionId meeting)
                        "Failed to process stuck meeting")
             else ret tt)
            (fun sessionError =>
               logger.log error "Failed to get session data for stuck meeting")
        else ret tt) ;;;
       (if status_is meeting "recording" && olderThan 30 age then
          logger.log warn "Meeting stuck in recording status" ;;;
          tryCatch
            (sessionData <- chatterboxService.getSessionData (sessionId meeting) ;;
             if Js.truthy (recordingLink sessionData) then
               logger.log info
                 "Found recording for long-running meeting, starting processing" ;;;
               spawn (ProcessRecordingUrgently (meetingId meeting)
                        (recordingLink sessionData) (sessionId meeting)
                        "Failed to process long-running meeting")
             else ret tt)
            (fun sessionError =>
               logger.log error "Failed to get session data for long-running meeting")
        else ret tt))
    (fun e => logger.log error "Failed to check meeting status").

Definition pollMeetingStatuses : M unit :=
  tryCatch
    (stuckMeetings <- databaseService.getMeetingsByStatus "bot_joined" 10 ;;
     recordingMeetings <- databaseService.getMeetingsByStatus "recording" 10 ;;
     let allMeetings := stuckMeetings ++ recordingMeetings in
     match allMeetings with
     | [] => ret tt
     | _ =>
         logger.log info "Polling meeting statuses" ;;;
         forOf allMeetings checkMeetingStatus
     end)
    (fun e => logger.log error "Poll status job failed").

End WithEnv.
End pollStatusJob.

(** The other copy: it first checks that the database answers, and it
    gives up on a meeting that stayed in [bot_joined] for more than
    three hours. *)
Module pollStatusJobCeiling.
Import pollCommon.
Section WithEnv.
Context {E : Env}.

Definition checkMeetingStatus (meeting : Row) : M unit :=
  tryCatch
    (if negb (Js.truthy (text_of meeting "chatterbox_session_id")) then
       logger.log warn "Meeting has no ChatterBox session ID"
     else
       t <- dateNow ;;
       let age := statusAgeMinutes t meeting in
       if status_is meeting "bot_joined" && olderThan 180 age then
         logger.log warn
           "Meeting stuck in bot_joined status for too long, marking as failed" ;;;
         t' <- dateNow ;;
         databaseService.updateMeeting (meetingId meeting)
           (meetingService.failedUpdates t') ;;;
         ret tt
       else
         (if status_is meeting "bot_joined" && olderThan 2 age then
            (if onTenthMinute age
             then logger.log warn "Meeting stuck in bot_joined status"
             else ret tt) ;;;
            tryCatch
              (sessionData <- chatterboxService.getSessionData (sessionId meeting) ;;
               if Js.truthy (recordingLink sessionData) then
                 logger.log info
                   "Found recording for stuck meeting, starting processing" ;;;
                 spawn (ProcessRecordingUrgently (meetingId meeting)
                          (recordingLink sessionData) (sessionId meeting)
                          "Failed to process stuck meeting")
               else ret tt)
              (fun sessionError =>
                 if onTenthMinute age
                 then logger.log error "Failed to get session data for stuck meeting"
                 else ret tt)
          else ret tt) ;;;
         (if status_is meeting "recording" && olderThan 30 age then
            logger.log warn "Meeting stuck in recording status" ;;;
            tryCatch
              (sessionData <- chatterboxService.getSessionData (sessionId meeting) ;;
               if Js.truthy (recordingLink sessionData) then
                 logger.log info
                   "Found recording for long-running meeting, starting processing" ;;;
                 spawn (ProcessRecordingUrgently (meetingId meeting)
                          (recordingLink sessionData) (sessionId meeting)
                          "Failed to process long-running meeting")
               else ret tt)
              (fun sessionError =>
                 logger.log error
                   "Failed to get session data for long-running meeting")
          else ret tt))
    (fun e => logger.log error "Failed to check meeting status").

Definition relationMissing : string :=
  "relation " +:+ Js.dq +:+ "meetings" +:+ Js.dq +:+ " does not exist".

Definition pollMeetingStatuses : M unit :=
  tryCatch
    (databaseService.healthCheck ;;;
     stuckMeetings <- databaseService.getMeetingsByStatus "bot_joined" 10 ;;
     recordingMeetings <- databaseService.getMeetingsByStatus "recording" 10 ;;
     let allMeetings := stuckMeetings ++ recordingMeetings in
     match allMeetings with
     | [] => ret tt
     | _ =>
         logger.log info "Polling meeting statuses" ;;;
         forOf allMeetings checkMeetingStatus
     end)
    (fun e =>
       if Js.includes relationMissing (message e)
          || Js.includes "SUPABASE_SERVICE_ROLE_KEY" (message e)
       then logger.log warn "Database not ready, skipping poll cycle"
       else logger.log error "Poll status job failed").

End WithEnv.
End pollStatusJobCeiling.

(* ================================================================== *)
(** * Vocabulary of the properties *)
(* ================================================================== *)

(** ** White space, as ECMAScript lists it *)

Module Unicode.

(** The code points of [WhiteSpace] (TAB, VT, FF, ZWNBSP and the
    category [Space_Separator]) and of [LineTerminator] (LF, CR, LS,
    PS). *)
Definition whiteSpace : list N :=
  [ 0x0009; 0x000A; 0x000B; 0x000C; 0x000D; 0x0020; 0x00A0; 0x1680;
    0x2000; 0x2001; 0x2002; 0x2003; 0x2004; 0x2005; 0x2006; 0x2007;
    0x2008; 0x2009; 0x200A; 0x2028; 0x2029; 0x202F; 0x205F; 0x3000;
    0xFEFF ]%N.

(** UTF-8 of a code point of the basic plane. *)
Definition utf8 (cp : N) : string :=
  (if cp <? 0x80 then String (ascii_of_N cp) ""
   else if cp <? 0x800 then
     String (ascii_of_N (0xC0 + cp / 64)) (String (ascii_of_N (0x80 + cp mod 64)) "")
   else
     String (ascii_of_N (0xE0 + cp / 4096))
       (String (ascii_of_N (0x80 + (cp / 64) mod 64))
          (String (ascii_of_N (0x80 + cp mod 64)) "")))%N.

Definition encode (cps : list N) : string :=
  foldr (fun cp s => utf8 cp +:+ s) "" cps.

(** Empty, or white space only. *)
Definition whiteSpaceOnly (s : string) : Prop :=
  exists cps, Forall (fun cp => cp ∈ whiteSpace) cps /\ s = encode cps.

(** A text that is missing, empty, or white space only. *)
Definition noText (t : option string) : Prop :=
  match t with
  | None => True
  | Some s => whiteSpaceOnly s
  end.

(** [s] begins, or ends, with a white space code point. *)
Definition startsWithSpace (s : string) : Prop :=
  exists cp rest, cp ∈ whiteSpace /\ s = utf8 cp +:+ rest.

Definition endsWithSpace (s : string) : Prop :=
  exists cp front, cp ∈ whiteSpace /\ s = front +:+ utf8 cp.

End Unicode.

(** One white space code point taken off the front, as [trimStart]
    does it. *)
Definition stripSpace (s : string) : option string :=
  match s with
  | EmptyString => None
  | String c1 rest1 =>
      if Js.is_space c1 then Some rest1 else
      match rest1 with
      | EmptyString => None
      | String c2 rest2 =>
          if Js.is_space2 c1 c2 then Some rest2 else
          match rest2 with
          | EmptyString => None
          | String c3 rest3 => if Js.is_space3 c1 c2 c3 then Some rest3 else None
          end
      end
  end.


Section LabellingVocabulary.
Context {Speaker : Type} `{Countable Speaker}.

(** 1-based rank in an order of first appearance; 0 when absent. *)
Definition rankIn (order : list Speaker) (s : Speaker) : nat :=
match TranscriptService.position s order with Some i => S i | None => 0%nat end.

(** The loop variables agree with the speakers [seen] so far. *)
Definition labelsAgree (seen : list Speaker) (speakerCount : nat)
  (speakerMap : gmap Speaker string) : Prop :=
speakerCount = length seen /\
forall s, speakerMap !! s
          = (fun i => TranscriptService.speakerLabel (S i)) <$> TranscriptService.position s seen.

End LabellingVocabulary.

Definition Adds {A} (P : Event -> bool) (m : M A) : Prop :=
  forall w, exists new, history (m w).2 = new ++ history w /\ forallb P new = true.

Definition anyEvent (ev : Event) : bool := true.

Definition notSleep (ev : Event) : bool :=
  match ev with EvSleep _ => false | _ => true end.

Definition isLog (ev : Event) : bool :=
  match ev with EvLog _ _ => true | _ => false end.

Definition notSpawn (ev : Event) : bool :=
  match ev with EvSpawn _ => false | _ => true end.

(** What [retryProcessing] does by itself: it logs, updates the
    meeting and asks the provider. *)
Definition retryOnly (ev : Event) : bool :=
  match ev with
  | EvLog _ _ => true
  | EvDb (UpdateMeeting _ _) => true
  | EvGetSession _ => true
  | _ => false
  end.

(** The delays slept so far, most recent first. *)
Definition sleepsOf (h : list Event) : list Z :=
  omap (fun ev => match ev with EvSleep ms => Some ms | _ => None end) h.

Definition Emits {A} (ev : Event) (m : M A) : Prop :=
  forall w, exists new, history (m w).2 = new ++ history w /\ In ev new.

(** The State Store answers every statement. *)
Definition storeAvailable (E : Env) : Prop := forall h, db_fault h = None.

(** A unit of work that leaves the attempt records alone. *)
Definition keepsLogs {A} (m : M A) : Prop :=
  forall w, processing_logs (m w).2 = processing_logs w.

(** The provider fails whenever it is asked. *)
Definition providerDown (E : Env) : Prop := forall h, exists e, session_reply h = Throw e.

(** The provider has no usable recording link, whenever it is asked. *)
Definition noUsableRecording (E : Env) : Prop :=
  forall h, match session_reply h with
            | Ok sd => Js.truthy (recordingLink sd) = false
            | Throw _ => True
            end.

(** The upstream answered "access denied" or "not found". *)
Definition sourceExpired (cause : JsError) : Prop :=
  response_status cause = Some 403 \/ response_status cause = Some 404.

(** What the [catch] of [streamRecordingToGoogleDrive] throws for a
    failure [cause] of the download or of the upload. *)
Definition transferError (cause e : JsError) : Prop :=
  (sourceExpired cause ->
     exists status, response_status cause = Some status
                    /\ e = Error (fileService.expiredMessage status))
  /\ (~ sourceExpired cause -> code cause = Some "ECONNABORTED" ->
        e = Error fileService.timeoutMessage)
  /\ (~ sourceExpired cause -> code cause <> Some "ECONNABORTED" -> e = cause).

(** The status stored for a meeting. *)
Definition meetingStatus (w : World) (meetingId : string) : option string :=
  match meetings w !! meetingId with
  | Some row => text_of row "status"
  | None => None
  end.

(** The world in which the poller starts examining the meetings it
    found. *)
Definition polled (w : World) (allMeetings : list Row) : World :=
  {| meetings := meetings w; processing_logs := processing_logs w;
     history := match allMeetings with
                | [] => []
                | _ => [EvLog info "Polling meeting statuses"]
                end
                ++ EvDb (SelectMeetingsByStatus "recording" 10)
                :: EvDb (SelectMeetingsByStatus "bot_joined" 10) :: history w;
     now := now w |}.

(** The meetings a cycle finds: at most ten in [bot_joined], then at
    most ten in [recording], newest first. *)
Definition stuckMeetings (w : World) : list Row :=
  take 10 (merge_sort databaseService.newestFirst
             (databaseService.rowsWhere "status" "bot_joined" (meetings w)))
  ++ take 10 (merge_sort databaseService.newestFirst
                (databaseService.rowsWhere "status" "recording" (meetings w))).

(** The history at which [streamRecordingToGoogleDrive] asks the
    recording's host for the recording, and the one at which it then
    asks the file store to create the file. *)
Definition downloadAsked (recordingUrl : string) (w : World) : list Event :=
  EvHttpGet recordingUrl
  :: EvLog info ("File operation " +:+ "stream_to_drive" +:+ ": " +:+ "started")
  :: history w.

Definition uploadAsked (recordingUrl meetingTitle : string) (w : World) : list Event :=
  EvDriveCreate ("Meeting Recording - " +:+ meetingTitle +:+ ".mkv")
  :: EvLog info ("File operation " +:+ "stream_to_drive" +:+ ": " +:+ "streaming")
  :: downloadAsked recordingUrl w.

(** ** The trace of the step executor *)

(** The line [processStep] logs when an attempt starts, and the one it
    logs when attempt [attempt] of [maxRetries] has failed. *)
Definition attemptingLine (stepName : string) : Event :=
  EvLog info ("Processing step " +:+ stepName +:+ ": " +:+ "attempting").

Definition failedLine (stepName : string) (attempt maxRetries : nat) : Event :=
  EvLog error ("Step " +:+ stepName +:+ " failed (attempt " +:+ pretty attempt
               +:+ "/" +:+ pretty maxRetries +:+ ")").

(** A wait, or the report of a failed attempt of [stepName]. *)
Definition waitOrFailure (stepName : string) (ev : Event) : bool :=
  match ev with
  | EvSleep _ => true
  | EvLog error msg => String.prefix ("Step " +:+ stepName +:+ " failed") msg
  | _ => false
  end.

(** What is expected after attempt [attempt] has failed: its report,
    and a wait of [backoffMs attempt] unless it was the last attempt
    allowed. *)
Definition failureAndWait (stepName : string) (maxRetries attempt : nat) : list Event :=
  failedLine stepName attempt maxRetries
  :: (if (attempt =? maxRetries)%nat then []
      else [EvSleep (meetingService.backoffMs attempt)]).

(** A unit of work that neither waits nor writes the executor's
    failure reports. *)
Definition noWaitOrFailure (stepName : string) (ev : Event) : bool :=
  negb (waitOrFailure stepName ev).

(** What [processStep] itself does for [stepName]: it announces an
    attempt, reports a failure, waits, and writes the attempt
    record. *)
Definition ofExecutor (stepName : string) (ev : Event) : bool :=
  match ev with
  | EvSleep _ => true
  | EvDb (InsertProcessingLog _ _) => true
  | EvDb (UpdateProcessingLog _ _ _ _ _) => true
  | EvLog error msg => String.prefix ("Step " +:+ stepName +:+ " failed") msg
  | EvLog info msg =>
      String.eqb msg ("Processing step " +:+ stepName +:+ ": " +:+ "attempting")
  | _ => false
  end.

(** A unit of work that does none of this. *)
Definition notOfExecutor (stepName : string) (ev : Event) : bool :=
  negb (ofExecutor stepName ev).

(** The trace of attempt [attempt] when it fails: it is announced, its
    failure is reported, and the executor waits unless it was the last
    attempt allowed. *)
Definition failedAttempt (stepName : string) (maxRetries attempt : nat) : list Event :=
  attemptingLine stepName :: failureAndWait stepName maxRetries attempt.

(** The record [processStep] inserts before its first attempt. *)
Definition startedRecord (meetingId stepName : string) (t : Z) : ProcessingLog :=
  {| log_meeting_id := meetingId; log_step := stepName; log_status := "started";
     log_metadata := MetaEmpty; log_started_at := t; log_completed_at := None;
     log_error_message := None; log_error_details := None |}.

(** How an invocation of [processStep] ends after [failures] failed
    attempts: what the executor does last ([closing]) and what the
    record [row] then holds.  A step that returns [a] got [a] from
    attempt [failures + 1] of its unit of work; a step that throws [e]
    got [e] from the last of [maxRetries] failed attempts. *)
Definition finalised {A} `{Describe A} (f : M A) (stepName : string)
    (maxRetries logId : nat) (r : Res (option A)) (failures : nat)
    (closing : list Event) (row : ProcessingLog) : Prop :=
  match r with
  | Ok (Some a) =>
      let metadata := MetaCompleted (S failures) (Js.substring0 100 (describe a)) in
      (failures < maxRetries)%nat
      /\ (exists w', (f w').1 = Ok a)
      /\ closing = [attemptingLine stepName;
                    EvDb (UpdateProcessingLog logId "completed" metadata None None)]
      /\ log_status row = "completed"
      /\ log_metadata row = metadata
      /\ log_error_message row = None
  | Ok None => False
  | Throw e =>
      let metadata := MetaFailed maxRetries maxRetries in
      failures = maxRetries
      /\ (exists w', (f w').1 = Throw e)
      /\ closing = [EvDb (UpdateProcessingLog logId "failed" metadata
                            (Some (message e)) (Some "stack"))]
      /\ log_status row = "failed"
      /\ log_metadata row = metadata
      /\ log_error_message row
         = (if Js.truthy (Some (message e)) then Some (message e) else None)
  end.

(** ** Sample worlds and collaborators *)

Module Samples.
Definition recordingUrl : string := "https://recordings.example/rec.mkv".

Definition session : SessionData :=
  {| recordingLink := Some recordingUrl; transcript := None;
     startTimestamp := Some 10; endTimestamp := Some 20 |}.

Definition sessionWithoutRecording : SessionData :=
  {| recordingLink := None; transcript := None;
     startTimestamp := None; endTimestamp := None |}.

Definition forbidden : JsError :=
  {| message := "Request failed with status code 403";
     response_status := Some 403; code := Some "ERR_BAD_REQUEST" |}.

Definition boom : JsError := Error "socket hang up".

(** Every collaborator answers. *)
Definition quietEnv : Env :=
  {| db_fault := fun _ => None;
     session_reply := fun _ => Ok session;
     http_reply := fun _ => Ok {| content_type := None; content_length := None |};
     drive_create_reply := fun _ =>
       Ok {| drive_id := "file-1"; drive_name := "Meeting Recording - Standup.mkv";
             drive_webViewLink := "https://drive.example/file-1"; drive_size := Some 5 |};
     drive_permission_reply := fun _ => None;
     docs_reply := fun _ =>
       Ok {| doc_id := "doc-1"; doc_webViewLink := "https://docs.example/doc-1" |};
     slack_reply := fun _ => Ok {| messageTs := "1700000000.0001"; channel := "C1" |} |}.

(** The recording link is refused, and Slack is down. *)
Definition expiredEnv : Env :=
  {| db_fault := fun _ => None;
     session_reply := fun _ => Ok session;
     http_reply := fun _ => Throw forbidden;
     drive_create_reply := fun _ => Throw boom;
     drive_permission_reply := fun _ => None;
     docs_reply := fun _ => Throw boom;
     slack_reply := fun _ => Throw boom |}.

(** The database does not answer. *)
Definition storeDownEnv : Env :=
  {| db_fault := fun _ => Some (Error "fetch failed");
     session_reply := fun _ => Throw boom;
     http_reply := fun _ => Throw boom;
     drive_create_reply := fun _ => Throw boom;
     drive_permission_reply := fun _ => None;
     docs_reply := fun _ => Throw boom;
     slack_reply := fun _ => Throw boom |}.

(** The provider has no recording for the session. *)
Definition noRecordingEnv : Env :=
  {| db_fault := fun _ => None;
     session_reply := fun _ => Ok sessionWithoutRecording;
     http_reply := fun _ => Throw boom;
     drive_create_reply := fun _ => Throw boom;
     drive_permission_reply := fun _ => None;
     docs_reply := fun _ => Throw boom;
     slack_reply := fun _ => Ok {| messageTs := "1700000000.0002"; channel := "C1" |} |}.

(** The recording's host fails twice, then serves the recording. *)
Definition flakyEnv : Env :=
  {| db_fault := fun _ => None;
     session_reply := fun _ => Ok session;
     http_reply := fun h =>
       if (length (List.filter (fun ev => match ev with EvHttpGet _ => true | _ => false end) h)
           <? 3)%nat
       then Throw boom
       else Ok {| content_type := None; content_length := None |};
     drive_create_reply := fun _ =>
       Ok {| drive_id := "file-1"; drive_name := "Meeting Recording - Standup.mkv";
             drive_webViewLink := "https://drive.example/file-1"; drive_size := Some 5 |};
     drive_permission_reply := fun _ => None;
     docs_reply := fun _ =>
       Ok {| doc_id := "doc-1"; doc_webViewLink := "https://docs.example/doc-1" |};
     slack_reply := fun _ => Ok {| messageTs := "1700000000.0001"; channel := "C1" |} |}.

(** What the file store answers when the account has no room left. *)
Definition quotaExceeded : JsError :=
  {| message := "The user's Drive storage quota has been exceeded.";
     response_status := Some 403; code := Some "403" |}.

(** The recording is served; the file store refuses the upload. *)
Definition uploadRefusedEnv : Env :=
  {| db_fault := fun _ => None;
     session_reply := fun _ => Ok session;
     http_reply := fun _ => Ok {| content_type := None; content_length := None |};
     drive_create_reply := fun _ => Throw quotaExceeded;
     drive_permission_reply := fun _ => None;
     docs_reply := fun _ =>
       Ok {| doc_id := "doc-1"; doc_webViewLink := "https://docs.example/doc-1" |};
     slack_reply := fun _ => Ok {| messageTs := "1700000000.0001"; channel := "C1" |} |}.

Definition meetingRow (status : string) (session : Value) (updatedAt : Z) : Row :=
  <["id" := VText "m1"]>
    (<["meeting_title" := VText "Standup"]>
    (<["status" := VText status]>
    (<["chatterbox_session_id" := session]>
    (<["google_drive_recording_id" := VText "file-0"]>
    (<["created_at" := VTime 0]>
    (<["updated_at" := VTime updatedAt]> ∅)))))).

Definition worldWith (row : Row) (t : Z) : World :=
  {| meetings := {[ "m1" := row ]}; processing_logs := ∅; history := []; now := t |}.

Definition completedWorld : World :=
  worldWith (meetingRow "completed" (VText "s1") 0) 1000.

Definition fourHours : Z := 4 * 60 * 60 * 1000.

Definition transcript : Transcript :=
  [ {| TranscriptService.speaker := "alice"; TranscriptService.text := Some " Hello ";
       TranscriptService.timeStart := Some 1000; TranscriptService.timeEnd := Some 2000 |};
    {| TranscriptService.speaker := "bob"; TranscriptService.text := Some "   ";
       TranscriptService.timeStart := Some 3000; TranscriptService.timeEnd := Some 4000 |};
    {| TranscriptService.speaker := "carol"; TranscriptService.text := Some "Hi";
       TranscriptService.timeStart := Some 65000; TranscriptService.timeEnd := None |};
    {| TranscriptService.speaker := "alice"; TranscriptService.text := Some "Bye";
       TranscriptService.timeStart := Some 3725000; TranscriptService.timeEnd := None |} ].
End Samples.

(* ================================================================== *)
(** * Properties *)
(* ================================================================== *)

Import TranscriptService.

(** * White space and [trim] *)

Section Trim.
Import Unicode.

Lemma trimStart_step s :
  Js.trimStart s = match stripSpace s with
                   | Some rest => Js.trimStart rest
                   | None => s
                   end.
Proof.
  destruct s as [|c1 rest1]; [done|]. cbn [Js.trimStart stripSpace].
  destruct (Js.is_space c1); [done|].
  destruct rest1 as [|c2 rest2]; [done|]. destruct (Js.is_space2 c1 c2); [done|].
  destruct rest2 as [|c3 rest3]; [done|]. by destruct (Js.is_space3 c1 c2 c3).
Qed.

Lemma stripSpace_utf8 cp rest :
  cp ∈ whiteSpace -> stripSpace (utf8 cp +:+ rest) = Some rest.
Proof.
  unfold whiteSpace. rewrite !elem_of_cons, elem_of_nil.
  intros Hcp. repeat destruct Hcp as [->|Hcp]; try reflexivity. done.
Qed.

Lemma ascii_of_code c n : nat_of_ascii c = n -> c = ascii_of_nat n.
Proof. intros <-. by rewrite ascii_nat_embedding. Qed.

(** Finds the code point whose encoding stands at the front. *)
Ltac find_space :=
  let rec try_each l :=
    lazymatch l with
    | ?cp :: ?l' =>
        first [ exists cp; split; [unfold whiteSpace; solve [repeat constructor]|reflexivity]
              | try_each l' ]
    end in
  let l := eval unfold whiteSpace in whiteSpace in try_each l.

Lemma stripSpace_Some s rest :
  stripSpace s = Some rest ->
  exists cp, cp ∈ whiteSpace /\ s = utf8 cp +:+ rest.
Proof.
  destruct s as [|c1 rest1]; [discriminate|]. cbn.
  destruct (Js.is_space c1) eqn:H1.
  { intros [= ->]. unfold Js.is_space in H1. cbv zeta in H1.
    repeat (apply orb_true_iff in H1; destruct H1 as [H1|H1]);
      apply Nat.eqb_eq, ascii_of_code in H1; subst c1; find_space. }
  destruct rest1 as [|c2 rest2]; [discriminate|].
  destruct (Js.is_space2 c1 c2) eqn:H2.
  { intros [= ->]. unfold Js.is_space2 in H2.
    apply andb_true_iff in H2. destruct H2 as [Ha Hb].
    apply Nat.eqb_eq, ascii_of_code in Ha, Hb. subst c1 c2. find_space. }
  destruct rest2 as [|c3 rest3]; [discriminate|].
  destruct (Js.is_space3 c1 c2 c3) eqn:H3; [|discriminate].
  intros [= ->]. unfold Js.is_space3 in H3. cbv zeta in H3.
  repeat match goal with
         | H : (_ || _)%bool = true |- _ => apply orb_true_iff in H; destruct H as [H|H]
         | H : (_ && _)%bool = true |- _ =>
             apply andb_true_iff in H; let H' := fresh in destruct H as [H H']
         | H : (_ =? _)%nat = true |- _ => apply Nat.eqb_eq, ascii_of_code in H
         end; subst; try find_space.
  match goal with
  | Hlo : Nat.leb 128 ?c = true, Hhi : Nat.leb ?c 138 = true |- _ =>
      apply Nat.leb_le in Hlo, Hhi;
      assert (Hc : (c = 128 \/ c = 129 \/ c = 130 \/ c = 131 \/ c = 132 \/ c = 133
                    \/ c = 134 \/ c = 135 \/ c = 136 \/ c = 137 \/ c = 138)%nat) by lia
  end.
  repeat destruct Hc as [Hc|Hc]; apply ascii_of_code in Hc; subst c3; find_space.
Qed.

Lemma string_app_cons c (a b : string) : String c a +:+ b = String c (a +:+ b).
Proof. reflexivity. Qed.

Lemma string_app_assoc (a b c : string) : (a +:+ b) +:+ c = a +:+ (b +:+ c).
Proof. induction a as [|x a IH]; [done|]. by rewrite !string_app_cons, IH. Qed.

Lemma string_app_nil_r (a : string) : a +:+ "" = a.
Proof. induction a as [|x a IH]; [done|]. by rewrite string_app_cons, IH. Qed.

Lemma string_length_app (a b : string) :
  String.length (a +:+ b) = (String.length a + String.length b)%nat.
Proof. induction a as [|x a IH]; [done|]. rewrite string_app_cons. cbn. by rewrite IH. Qed.

Lemma length_utf8 cp : (0 < String.length (utf8 cp))%nat.
Proof. unfold utf8. repeat case_match; cbn; lia. Qed.

Lemma length_utf8_app cp rest : (String.length rest < String.length (utf8 cp +:+ rest))%nat.
Proof. rewrite string_length_app. pose proof (length_utf8 cp). lia. Qed.

Lemma empty_not_endsWithSpace : ~ endsWithSpace "".
Proof.
  intros (cp & front & _ & Heq). apply (f_equal String.length) in Heq.
  rewrite string_length_app in Heq. pose proof (length_utf8 cp). cbn in Heq. lia.
Qed.

Lemma encode_cons cp cps : encode (cp :: cps) = utf8 cp +:+ encode cps.
Proof. reflexivity. Qed.

(** [trimStart] takes white space off the front until none is left. *)
Lemma trimStart_spec s :
  exists cps, Forall (fun cp => cp ∈ whiteSpace) cps
              /\ s = encode cps +:+ Js.trimStart s
              /\ stripSpace (Js.trimStart s) = None.
Proof.
  remember (String.length s) as n eqn:Hn. revert s Hn.
  induction n as [n IH] using lt_wf_ind. intros s ->.
  rewrite trimStart_step. destruct (stripSpace s) as [rest|] eqn:Hs.
  - destruct (stripSpace_Some _ _ Hs) as (cp & Hcp & ->).
    destruct (IH _ (length_utf8_app cp rest) rest eq_refl) as (cps & Hall & Heq & Hnone).
    exists (cp :: cps). split; [by constructor|]. split; [|done].
    rewrite encode_cons, string_app_assoc. by rewrite <- Heq.
  - exists []. by repeat split.
Qed.

Lemma trimStart_encode cps s :
  Forall (fun cp => cp ∈ whiteSpace) cps -> Js.trimStart (encode cps +:+ s) = Js.trimStart s.
Proof.
  induction 1 as [|cp cps Hcp _ IH]; [done|].
  rewrite encode_cons, string_app_assoc, trimStart_step, stripSpace_utf8 by done.
  exact IH.
Qed.

Lemma trimStart_fixed s : stripSpace s = None -> Js.trimStart s = s.
Proof. intros Hs. by rewrite trimStart_step, Hs. Qed.

Lemma onlySpace_spec s : Js.onlySpace s = true <-> whiteSpaceOnly s.
Proof.
  unfold Js.onlySpace. split.
  - destruct (trimStart_spec s) as (cps & Hall & Heq & _).
    destruct (Js.trimStart s); [|discriminate]. intros _.
    exists cps. split; [done|]. by rewrite string_app_nil_r in Heq.
  - intros (cps & Hall & ->).
    rewrite <- (string_app_nil_r (encode cps)), trimStart_encode by done. done.
Qed.

(** [trimEnd] takes white space off the end until none is left. *)
Lemma trimEnd_spec s :
  exists cps, Forall (fun cp => cp ∈ whiteSpace) cps
              /\ s = Js.trimEnd s +:+ encode cps
              /\ ~ endsWithSpace (Js.trimEnd s).
Proof.
  induction s as [|c s IH].
  { exists []. repeat split; [constructor|apply empty_not_endsWithSpace]. }
  cbn [Js.trimEnd]. destruct (Js.onlySpace (String c s)) eqn:Hos.
  - apply onlySpace_spec in Hos. destruct Hos as (cps & Hall & Heq).
    exists cps. repeat split; [done|done|apply empty_not_endsWithSpace].
  - destruct IH as (cps & Hall & Heq & Hend).
    exists cps. split; [done|]. split; [by rewrite string_app_cons, <- Heq|].
    intros (cp & front & Hcp & Hf). destruct front as [|x front].
    + assert (Hws : whiteSpaceOnly (String c s)).
      { exists (cp :: cps). split; [by constructor|].
        rewrite encode_cons. change (utf8 cp) with ("" +:+ utf8 cp). rewrite <- Hf.
        by rewrite string_app_cons, <- Heq. }
      apply onlySpace_spec in Hws. congruence.
    + rewrite string_app_cons in Hf. injection Hf as -> Hf. apply Hend. by exists cp, front.
Qed.

(** [trim] is the text between the white space at the two ends. *)
Lemma trim_spec s :
  exists before after,
    Forall (fun cp => cp ∈ whiteSpace) before
    /\ Forall (fun cp => cp ∈ whiteSpace) after
    /\ s = encode before +:+ Js.trim s +:+ encode after
    /\ ~ startsWithSpace (Js.trim s)
    /\ ~ endsWithSpace (Js.trim s).
Proof.
  unfold Js.trim.
  destruct (trimStart_spec s) as (before & Hb & Heq & Hnone).
  destruct (trimEnd_spec (Js.trimStart s)) as (after & Ha & Heq' & Hend).
  exists before, after. repeat split; [done|done| | |done].
  - by rewrite <- Heq'.
  - intros (cp & rest & Hcp & Hs). rewrite Hs, string_app_assoc in Heq'.
    rewrite Heq', stripSpace_utf8 in Hnone by done. discriminate.
Qed.

(** [text.trim().length === 0] exactly for the texts made of white
    space. *)
Lemma trim_empty_iff s : String.length (Js.trim s) = 0%nat <-> whiteSpaceOnly s.
Proof.
  rewrite <- onlySpace_spec. unfold Js.trim, Js.onlySpace. split.
  - destruct (Js.trimStart s) as [|c rest] eqn:Hs; [done|].
    cbn [Js.trimEnd]. unfold Js.onlySpace.
    destruct (trimStart_spec s) as (_ & _ & _ & Hnone). rewrite Hs in Hnone.
    rewrite (trimStart_fixed _ Hnone). discriminate.
  - destruct (Js.trimStart s); [done|discriminate].
Qed.

End Trim.


Section Labelling.
Context {Speaker : Type} `{Countable Speaker}.
Implicit Types (s : Speaker) (seen l : list Speaker).

Lemma position_Some_elem s l i : position s l = Some i -> s ∈ l.
Proof.
  revert i. induction l as [|x l IH]; simpl; intros i Hp; [discriminate|].
  destruct (decide (x = s)) as [->|Hne]; [left|].
  destruct (position s l) eqn:E; [|discriminate]. right. eauto.
Qed.

Lemma position_None_not_elem s l : position s l = None -> s ∉ l.
Proof.
  induction l as [|x l IH]; simpl; intros Hp; [apply not_elem_of_nil|].
  destruct (decide (x = s)) as [->|Hne]; [discriminate|].
  destruct (position s l) eqn:E; [discriminate|].
  apply not_elem_of_cons. split; [congruence|auto].
Qed.

Lemma position_app_l s l1 l2 i :
  position s l1 = Some i -> position s (l1 ++ l2) = Some i.
Proof.
  revert i. induction l1 as [|x l1 IH]; simpl; intros i Hp; [discriminate|].
  destruct (decide (x = s)); [done|].
  destruct (position s l1) eqn:E; [|discriminate].
  rewrite (IH n0 eq_refl). done.
Qed.

Lemma position_app_r s l1 l2 :
  position s l1 = None ->
  position s (l1 ++ l2) = (fun i => (length l1 + i)%nat) <$> position s l2.
Proof.
  induction l1 as [|x l1 IH]; simpl; intros Hp.
  - destruct (position s l2); done.
  - destruct (decide (x = s)); [discriminate|].
    destruct (position s l1) eqn:E; [discriminate|].
    rewrite IH by done. destruct (position s l2); done.
Qed.

Lemma firstAppearances_filter (P : Speaker -> Prop) `{forall x, Decision (P x)} l :
  filter P (firstAppearances l) = firstAppearances (filter P l).
Proof.
  induction l as [|x l IH]; [done|]. simpl.
  rewrite !filter_cons. destruct (decide (P x)) as [Hx|Hx]; simpl.
  - f_equal. rewrite <- IH. rewrite !list_filter_filter.
    apply list_filter_iff. tauto.
  - rewrite <- IH. rewrite list_filter_filter.
    apply list_filter_iff. intros y. split; [tauto|].
    intros Hy. split; [done|]. intros ->. done.
Qed.

Lemma labelsAgree_extend seen cnt m s :
  labelsAgree seen cnt m -> position s seen = None ->
  labelsAgree (seen ++ [s]) (S cnt) (<[s := speakerLabel (S cnt)]> m).
Proof.
  intros [-> Hm] Hs. split; [rewrite length_app; simpl; lia|].
  intros s'. destruct (decide (s = s')) as [<-|Hne].
  - rewrite lookup_insert_eq, position_app_r by done. simpl.
    rewrite decide_True by done. simpl. do 3 f_equal. lia.
  - rewrite lookup_insert_ne, Hm by done.
    destruct (position s' seen) eqn:E.
    + by rewrite (position_app_l _ _ _ _ E).
    + rewrite position_app_r by done. simpl. by rewrite decide_False.
Qed.

Lemma transcriptLoop_spec (rest : list (TranscriptEntry Speaker)) :
  forall seen cur cnt m order,
    labelsAgree seen cnt m ->
    order = seen ++ firstAppearances (filter (fun x => x ∉ seen) (speaker <$> spoken rest)) ->
    transcriptLoop rest cur cnt m =
    renderTurns cur ((fun e => (speakerLabel (rankIn order (speaker e)),
                                timeStart e, Js.trim (default "" (text e)))) <$> spoken rest).
Proof.
  induction rest as [|e rest IH]; intros seen cur cnt m order Hagree Horder; [done|].
  simpl. unfold spoken in *. rewrite filter_cons in Horder |- *.
  destruct (blank (text e)) eqn:Hb; simpl in *.
  { eapply IH; eauto. }
  destruct Hagree as [Hcnt Hm]. rewrite Hm.
  destruct (position (speaker e) seen) as [i|] eqn:Hp; simpl.
  - assert (Hin : speaker e ∈ seen) by eauto using position_Some_elem.
    rewrite filter_cons, decide_False in Horder by tauto.
    assert (Hr : rankIn order (speaker e) = S i).
    { unfold rankIn. subst order. by rewrite (position_app_l _ _ _ _ Hp). }
    rewrite Hr. erewrite IH; [reflexivity|split; eauto|exact Horder].
  - assert (Hnin : speaker e ∉ seen) by eauto using position_None_not_elem.
    rewrite filter_cons, decide_True in Horder by done. simpl in Horder.
    assert (Hr : rankIn order (speaker e) = S cnt).
    { unfold rankIn. subst order. rewrite position_app_r by done. simpl.
      rewrite decide_True by done. simpl. f_equal. lia. }
    rewrite Hr.
    erewrite IH; [reflexivity|apply labelsAgree_extend; [split|]; eauto|].
    subst order. rewrite <- app_assoc. simpl. do 2 f_equal.
    rewrite firstAppearances_filter, list_filter_filter.
    f_equal. apply list_filter_iff. intros y.
    rewrite not_elem_of_app, not_elem_of_cons. split; [intros [? ?]|intros [? [? ?]]].
    + split; [done|]. split; [done|apply not_elem_of_nil].
    + split; done.
Qed.
End Labelling.

Lemma filter_all {A} (P : A -> Prop) `{forall x, Decision (P x)} (l : list A) :
  (forall x, P x) -> filter P l = l.
Proof.
  intros HP. induction l as [|x l IH]; [done|].
  rewrite filter_cons, decide_True by done. by rewrite IH.
Qed.

Section Labels2.
Context {Speaker : Type} `{Countable Speaker}.
Implicit Types (s : Speaker) (l : list Speaker).

Lemma position_elem_Some s l : s ∈ l -> exists i, position s l = Some i.
Proof.
  intros Hin. destruct (position s l) eqn:E; [eauto|].
  by apply position_None_not_elem in E.
Qed.

Lemma position_inj s1 s2 l i :
  position s1 l = Some i -> position s2 l = Some i -> s1 = s2.
Proof.
  revert i. induction l as [|x l IH]; simpl; intros i H1 H2; [discriminate|].
  destruct (decide (x = s1)), (decide (x = s2)); try congruence.
  - destruct (position s2 l); simplify_eq/=.
  - destruct (position s1 l); simplify_eq/=.
  - destruct (position s1 l) eqn:E1, (position s2 l) eqn:E2; simplify_eq/=.
    eapply IH; eauto.
Qed.

Lemma elem_of_firstAppearances s l : s ∈ firstAppearances l <-> s ∈ l.
Proof.
  induction l as [|x l IH]; simpl; [done|].
  rewrite !elem_of_cons, list_elem_of_filter, IH.
  destruct (decide (s = x)); [tauto|]. tauto.
Qed.

Lemma speakerLabel_inj k1 k2 : speakerLabel k1 = speakerLabel k2 -> k1 = k2.
Proof.
  unfold speakerLabel. intros Heq.
  by apply (inj (String.app "Speaker ")), (inj pretty) in Heq.
Qed.

Lemma speakerRank_spoken (entries : list (TranscriptEntry Speaker)) e :
  e ∈ spoken entries ->
  exists i, position (speaker e) (firstAppearances (speaker <$> spoken entries)) = Some i
            /\ speakerRank entries (speaker e) = S i.
Proof.
  intros He.
  destruct (position_elem_Some (speaker e) (firstAppearances (speaker <$> spoken entries)))
    as [i Hi].
  { apply elem_of_firstAppearances, list_elem_of_fmap. eauto. }
  exists i. split; [done|]. unfold speakerRank. by rewrite Hi.
Qed.
End Labels2.

Lemma transcriptLoop_rename {A B : Type} `{Countable A} `{Countable B} (rho : A -> B) :
  Inj (=) (=) rho ->
  forall (entries : list (TranscriptEntry A)) cur cnt (m1 : gmap A string) (m2 : gmap B string),
    (forall s, m2 !! rho s = m1 !! s) ->
    transcriptLoop (renameSpeaker rho <$> entries) cur cnt m2
    = transcriptLoop entries cur cnt m1.
Proof.
  intros Hinj entries. induction entries as [|e rest IH]; intros cur cnt m1 m2 Hm; [done|].
  rewrite fmap_cons. simpl. destruct (blank (text e)); [by apply IH|].
  rewrite Hm. destruct (m1 !! speaker e) as [name|].
  - by rewrite (IH _ _ m1 m2).
  - erewrite IH; [reflexivity|]. intros s.
    destruct (decide (speaker e = s)) as [<-|Hne].
    + by rewrite !lookup_insert_eq.
    + rewrite !lookup_insert_ne; [done|done|]. intros Heq. by apply Hinj in Heq.
Qed.

Lemma blank_spec (t : option string) : blank t = true <-> Unicode.noText t.
Proof.
  destruct t as [s|]; [|done]. cbn [blank Unicode.noText].
  rewrite <- trim_empty_iff, orb_true_iff, Nat.eqb_eq. split; [|by right].
  intros [Hfalsy|Hlen]; [|done]. by destruct s.
Qed.

Lemma elem_of_spoken {A : Type} `{Countable A} (entries : list (TranscriptEntry A)) e :
  e ∈ spoken entries <-> e ∈ entries /\ ~ Unicode.noText (text e).
Proof.
  unfold spoken. rewrite list_elem_of_filter, <- blank_spec, not_true_iff_false. tauto.
Qed.

(** C10, as the code has it.  Which entries are left out: those whose
    text is missing, empty, or made of ECMAScript white space only.
    The text of [generateTranscriptText] is the rendering of the other
    entries, in order, each under the label [Speaker k] where [k] is
    the rank of its speaker by first appearance among them, with its
    time stamp and its text, from which the white space at both ends
    is taken off; two such entries have the same label exactly when
    they have the same raw speaker; a speaker none of whose entries
    carries text has no rank, hence no label.  The speaker values
    themselves are never written: the text is built from labels, time
    stamps and texts alone, so renaming the speakers one-to-one leaves
    it unchanged. *)
Theorem generateTranscriptText_speaker_labels {A : Type} `{Countable A}
    (entries : list (TranscriptEntry A)) :
  (forall t, blank t = true <-> Unicode.noText t)
  /\ (forall e, e ∈ spoken entries <-> e ∈ entries /\ ~ Unicode.noText (text e))
  /\ (forall s, exists before after,
        Forall (fun cp => cp ∈ Unicode.whiteSpace) before
        /\ Forall (fun cp => cp ∈ Unicode.whiteSpace) after
        /\ s = Unicode.encode before +:+ Js.trim s +:+ Unicode.encode after
        /\ ~ Unicode.startsWithSpace (Js.trim s)
        /\ ~ Unicode.endsWithSpace (Js.trim s))
  /\ generateTranscriptText entries
     = match entries with
       | [] => noTranscript
       | _ => Js.join Js.nl (transcriptTitle :: renderTurns None (labelledTurns entries))
       end
  /\ (forall e1 e2, e1 ∈ spoken entries -> e2 ∈ spoken entries ->
        (speakerLabel (speakerRank entries (speaker e1))
         = speakerLabel (speakerRank entries (speaker e2))
         <-> speaker e1 = speaker e2))
  /\ (forall e, e ∈ spoken entries ->
        (1 <= speakerRank entries (speaker e)
           <= length (firstAppearances (speaker <$> spoken entries)))%nat)
  /\ (forall s, speakerRank entries s = 0%nat <-> s ∉ speaker <$> spoken entries)
  /\ (forall (B : Type) `(Countable B) (rho : A -> B), Inj (=) (=) rho ->
        generateTranscriptText (renameSpeaker rho <$> entries)
        = generateTranscriptText entries).
Proof.
  split; [exact blank_spec|]. split; [exact (elem_of_spoken entries)|].
  split; [exact trim_spec|].
  split; [|split; [|split; [|split]]].
  - destruct entries as [|e rest]; [done|].
    unfold generateTranscriptText, labelledTurns. do 2 f_equal.
    rewrite (transcriptLoop_spec (e :: rest) [] None 0%nat ∅
               (firstAppearances (speaker <$> spoken (e :: rest)))); [reflexivity| |].
    + split; [done|]. intros s. by rewrite lookup_empty.
    + rewrite filter_all; [done|]. intros x. apply not_elem_of_nil.
  - intros e1 e2 H1 H2.
    destruct (speakerRank_spoken entries e1 H1) as (i1 & Hp1 & Hr1).
    destruct (speakerRank_spoken entries e2 H2) as (i2 & Hp2 & Hr2).
    rewrite Hr1, Hr2. split.
    + intros Heq%speakerLabel_inj. eapply position_inj; eauto. congruence.
    + intros Heq. rewrite Heq in Hp1. congruence.
  - intros e He. destruct (speakerRank_spoken entries e He) as (i & Hp & ->).
    split; [lia|]. clear He. revert i Hp.
    generalize (firstAppearances (speaker <$> spoken entries)) as l.
    induction l as [|x l IH]; simpl; intros i Hp; [discriminate|].
    destruct (decide (x = speaker e)); [simplify_eq; lia|].
    destruct (position (speaker e) l) eqn:E; simplify_eq/=.
    specialize (IH _ eq_refl). lia.
  - intros s. unfold speakerRank. rewrite <- elem_of_firstAppearances.
    destruct (position s (firstAppearances (speaker <$> spoken entries))) as [i|] eqn:Hp.
    + split; [discriminate|]. intros Hnin. by apply position_Some_elem in Hp.
    + split; [|done]. intros _. by apply position_None_not_elem.
  - intros B ? ? rho Hinj. destruct entries as [|e rest]; [done|].
    unfold generateTranscriptText. rewrite fmap_cons.
    rewrite <- fmap_cons. do 2 f_equal. by apply transcriptLoop_rename.
Qed.

Lemma generateTranscriptText_speaker_labels_witness :
  Inj (=) (=) (String.app "participant-")
  /\ generateTranscriptText (renameSpeaker (String.app "participant-") <$> Samples.transcript)
     = generateTranscriptText Samples.transcript.
Proof.
  assert (H : Inj (=) (=) (String.app "participant-")) by apply _.
  split; [exact H|].
  exact (proj2 (proj2 (proj2 (proj2 (proj2 (proj2 (proj2
           (generateTranscriptText_speaker_labels Samples.transcript)))))))
           string _ _ _ H).
Defined.

(** C10, as stated, fails: a speaker value that also occurs in a text
    is found in the output. *)
Lemma speaker_value_can_occur_in_the_text :
  let entry := {| speaker := "Hello"; text := Some "Hello";
                  timeStart := Some 1000; timeEnd := None |} in
  generateTranscriptText [entry]
  = Js.join Js.nl [transcriptTitle; "[00:01] Speaker 1:"; "Hello"; ""]
  /\ Js.includes (speaker entry) (generateTranscriptText [entry]) = true.
Proof. split; reflexivity. Qed.

Example transcript_lines :
  transcriptLoop Samples.transcript None 0%nat ∅
  = ["[00:01] Speaker 1:"; "Hello"; "";
     ""; "[01:05] Speaker 2:"; "Hi"; "";
     ""; "[01:02:05] Speaker 1:"; "Bye"; ""].
Proof. reflexivity. Qed.

(** An entry that says only a no-break space is left out, and takes
    no number. *)
Example no_break_space_entry_is_left_out :
  transcriptLoop
    [ {| speaker := "alice"; text := Some "Hello"; timeStart := Some 1000; timeEnd := None |};
      {| speaker := "bob"; text := Some (Unicode.encode [0xA0]%N);
         timeStart := Some 3000; timeEnd := None |};
      {| speaker := "carol"; text := Some "Hi"; timeStart := Some 65000; timeEnd := None |} ]
    None 0%nat ∅
  = ["[00:01] Speaker 1:"; "Hello"; "";
     ""; "[01:05] Speaker 2:"; "Hi"; ""].
Proof. reflexivity. Qed.

Example format_short : formatTimestamp (Some 75000%Z) = "01:15".
Proof. reflexivity. Qed.

Example format_long : formatTimestamp (Some 3725000%Z) = "01:02:05".
Proof. reflexivity. Qed.

Example trim_both : Js.trim "  hi there  " = "hi there".
Proof. reflexivity. Qed.

(** A no-break space and a line separator before, a byte order mark
    and an ideographic space after. *)
Example trim_unicode :
  Js.trim (Unicode.encode [0xA0; 0x2028]%N +:+ "hi there" +:+ Unicode.encode [0xFEFF; 0x3000]%N)
  = "hi there".
Proof. reflexivity. Qed.

Example trim_keeps_other_code_points :
  Js.trim (" " +:+ Unicode.encode [0xE9; 0x2192; 0x200B]%N +:+ " ")
  = Unicode.encode [0xE9; 0x2192; 0x200B]%N.
Proof. reflexivity. Qed.

Example blank_unicode :
  blank (Some (Unicode.encode [0x20; 0xA0; 0x2003; 0xFEFF]%N)) = true
  /\ blank (Some (Unicode.encode [0x20; 0x200B]%N)) = false.
Proof. split; reflexivity. Qed.

Arguments Js.substring0 : simpl never.
Arguments meetingService.backoffMs : simpl never.
Arguments databaseService.updateProcessingStep : simpl never.
Arguments databaseService.logProcessingStep : simpl never.
Arguments databaseService.updateMeeting : simpl never.
Arguments databaseService.getMeetingById : simpl never.

(** * What a computation adds to the history *)

Section AddsRules.
Context (P : Event -> bool).

Lemma adds_ret {A} (a : A) : Adds P (ret a).
Proof. intros w. by exists []. Qed.

Lemma adds_throw {A} e : Adds P (@throw A e).
Proof. intros w. by exists []. Qed.

Lemma adds_readWorld {A} (g : World -> A) : Adds P (readWorld g).
Proof. intros w. by exists []. Qed.

Lemma adds_dateNow : Adds P dateNow.
Proof. apply adds_readWorld. Qed.

Lemma adds_reply {A} (g : list Event -> Res A) : Adds P (reply g).
Proof. intros w. by exists []. Qed.

Lemma adds_fault g : Adds P (fault g).
Proof. intros w. exists []. unfold fault. by destruct (g (history w)). Qed.

Lemma adds_onTables {A} (g : World -> Res A * gmap string Row * gmap nat ProcessingLog) :
  Adds P (onTables g).
Proof. intros w. exists []. unfold onTables. by destruct (g w) as [[r ms] ls]. Qed.

Lemma adds_emit ev : P ev = true -> Adds P (emit ev).
Proof. intros HP w. exists [ev]. cbn. by rewrite HP. Qed.

Lemma adds_sleep ms : P (EvSleep ms) = true -> Adds P (sleep ms).
Proof. intros HP w. exists [EvSleep ms]. cbn. by rewrite HP. Qed.

Lemma adds_bind {A B} (m : M A) (k : A -> M B) :
  Adds P m -> (forall a, Adds P (k a)) -> Adds P (bind m k).
Proof.
  intros Hm Hk w. unfold bind. destruct (Hm w) as (n1 & H1 & F1).
  destruct (m w) as [[a|e] w1]; cbn in *; [|by exists n1].
  destruct (Hk a w1) as (n2 & H2 & F2). exists (n2 ++ n1).
  rewrite H2, H1, app_assoc, forallb_app, F1, F2. done.
Qed.

Lemma adds_tryCatch {A} (m : M A) (h : JsError -> M A) :
  Adds P m -> (forall e, Adds P (h e)) -> Adds P (tryCatch m h).
Proof.
  intros Hm Hh w. unfold tryCatch. destruct (Hm w) as (n1 & H1 & F1).
  destruct (m w) as [[a|e] w1]; cbn in *; [by exists n1|].
  destruct (Hh e w1) as (n2 & H2 & F2). exists (n2 ++ n1).
  rewrite H2, H1, app_assoc, forallb_app, F1, F2. done.
Qed.

Lemma adds_forOf {A} (l : list A) (body : A -> M unit) :
  (forall x, Adds P (body x)) -> Adds P (forOf l body).
Proof.
  intros Hb. induction l as [|x l IH]; simpl; [apply adds_ret|].
  apply adds_bind; auto.
Qed.
End AddsRules.

Lemma adds_weaken {A} (P Q : Event -> bool) (m : M A) :
  (forall ev, P ev = true -> Q ev = true) -> Adds P m -> Adds Q m.
Proof.
  intros HPQ Hm w. destruct (Hm w) as (new & Hh & HF). exists new. split; [done|].
  rewrite forallb_forall in *. auto.
Qed.

Ltac head_of t := match t with ?f _ => head_of f | _ => t end.

(** Structural steps; [leaf] proves [P ev = true] for an emitted event. *)
Ltac adds_with leaf :=
  repeat first
    [ assumption
    | apply adds_ret | apply adds_throw | apply adds_dateNow | apply adds_readWorld
    | apply adds_reply | apply adds_fault | apply adds_onTables
    | apply adds_emit; leaf
    | apply adds_sleep; leaf
    | apply adds_bind; [|intros ?]
    | apply adds_tryCatch; [|intros ?]
    | apply adds_forOf; intros ?
    | match goal with
      | H : forall _, Adds _ _ |- _ => apply H
      | |- Adds _ (if ?b then _ else _) => destruct b
      | |- Adds _ (match ?x with _ => _ end) => destruct x
      | |- Adds _ (let _ := _ in _) => cbv zeta
      | |- Adds _ ?m => let h := head_of m in progress unfold h
      end ].

Lemma tryCatch_run {A} (m : M A) h w :
  tryCatch m h w = match m w with
                   | (Ok a, w') => (Ok a, w')
                   | (Throw e, w') => h e w'
                   end.
Proof. reflexivity. Qed.

Lemma bind_run {A B} (m : M A) (k : A -> M B) w :
  bind m k w = match m w with
               | (Ok a, w') => k a w'
               | (Throw e, w') => (Throw e, w')
               end.
Proof. reflexivity. Qed.

Ltac run :=
  cbv beta iota zeta delta
    [bind tryCatch ret throw emit dateNow readWorld reply fault onTables sleep spawn
     logger.log logger.logProcessingStep logger.logMeetingEvent logger.logChatterBoxEvent
     logger.logFileOperation logger.logSlackNotification databaseService.supabase].

Lemma prefix_app (a b : string) : String.prefix a (a +:+ b) = true.
Proof.
  induction a as [|c a IH]; [by destruct b|].
  change (String c a +:+ b) with (String c (a +:+ b)). cbn.
  destruct (ascii_dec c c); [exact IH|done].
Qed.

Lemma waitOrFailure_failedLine stepName attempt maxRetries :
  waitOrFailure stepName (failedLine stepName attempt maxRetries) = true.
Proof.
  unfold waitOrFailure, failedLine.
  match goal with |- String.prefix ?a ?m = true =>
    replace m with (a +:+ (" (attempt " +:+ pretty attempt +:+ "/" +:+ pretty maxRetries
                           +:+ ")"))
      by (rewrite !string_app_assoc; reflexivity)
  end.
  apply prefix_app.
Qed.

Lemma filter_rev_none (P : Event -> bool) new :
  forallb (fun ev => negb (P ev)) new = true -> List.filter P (rev new) = [].
Proof.
  intros Hall. induction new as [|ev new IH]; [done|].
  cbn in Hall. apply andb_true_iff in Hall. destruct Hall as [Hev Hnew].
  cbn. rewrite List.filter_app, IH by done. cbn.
  apply negb_true_iff in Hev. by rewrite Hev.
Qed.

Section Backoff.
Context {E : Env} {A : Type} `{Describe A}.
Variables (meetingId stepName : string) (f : M A) (maxRetries logId : nat).
Hypothesis Hf : Adds (noWaitOrFailure stepName) f.

(** The failed attempts of the loop and the waits between them: from
    attempt [attempt] on, [k] attempts fail one after the other, and
    the loop waits after each of them but the last one allowed. *)
Lemma attemptLoop_waits remaining :
  forall attempt w,
    (attempt + remaining = S maxRetries)%nat ->
    let r := meetingService.attemptLoop meetingId stepName f maxRetries logId
               remaining attempt w in
    exists evs k,
      history r.2 = rev evs ++ history w
      /\ List.filter (waitOrFailure stepName) evs
         = flat_map (failureAndWait stepName maxRetries) (seq attempt k)
      /\ match r.1 with
         | Ok (Some _) => (k < remaining)%nat
         | Ok None => remaining = 0%nat
         | Throw _ => k = remaining
         end.
Proof.
  induction remaining as [|r IH]; intros attempt w Hsum; cbn zeta.
  { exists [], 0%nat. done. }
  simpl meetingService.attemptLoop. rewrite tryCatch_run.
  match goal with |- context [match ?m w with _ => _ end] =>
    assert (Hbody : Adds (noWaitOrFailure stepName) m) by adds_with ltac:(reflexivity);
    assert (Hsome : forall w', m w <> (Ok None, w'));
      [|destruct (Hbody w) as (newb & Hhb & Hqb); destruct (m w) as [[[a|]|e] w1]]
  end.
  { intros w'. run. destruct (f _) as [[b|e] w1]; [|done].
    destruct (databaseService.updateProcessingStep _ _ _ _ _ _) as [[row|e] w2]; done. }
  - exists (rev newb), 0%nat. cbn [fst snd] in *. rewrite rev_involutive.
    split; [done|]. split; [by apply filter_rev_none|lia].
  - by destruct (Hsome w1).
  - cbn [snd] in Hhb. rewrite bind_run. cbn [logger.log emit].
    destruct (attempt =? maxRetries)%nat eqn:Hlast.
    + apply Nat.eqb_eq in Hlast. subst attempt. assert (r = 0%nat) as -> by lia.
      rewrite bind_run.
      match goal with |- context [databaseService.updateProcessingStep ?a ?b ?c ?d ?e0 ?w2] =>
        assert (Hupd : Adds (noWaitOrFailure stepName)
                         (databaseService.updateProcessingStep a b c d e0))
          by adds_with ltac:(reflexivity);
        destruct (Hupd w2) as (newu & Hhu & Hqu);
        destruct (databaseService.updateProcessingStep a b c d e0 w2) as [[row|e'] w3]
      end; unfold throw; cbn [fst snd history] in *.
      all: exists (rev newb ++ failedLine stepName maxRetries maxRetries :: rev newu), 1%nat.
      all: rewrite Hhu, Hhb, rev_app_distr; cbn [rev]; rewrite !rev_involutive, <- !app_assoc.
      all: split; [reflexivity|]; split; [|reflexivity].
      all: rewrite List.filter_app; cbn [List.filter].
      all: rewrite !filter_rev_none, waitOrFailure_failedLine by done.
      all: cbn; by rewrite Nat.eqb_refl.
    + run. cbn [history meetings processing_logs now].
      match goal with |- context [meetingService.attemptLoop _ _ _ _ _ _ _ ?w3] =>
        destruct (IH (S attempt) w3) as (evs & k & Hh & Hfilter & Hout); [lia|]
      end.
      exists (rev newb ++ failedLine stepName attempt maxRetries
                :: EvLog info ("Retrying step " +:+ stepName +:+ " in "
                               +:+ pretty (meetingService.backoffMs attempt) +:+ "ms")
                :: EvSleep (meetingService.backoffMs attempt) :: evs), (S k).
      split; [|split].
      * rewrite Hh. cbn [history]. rewrite Hhb, rev_app_distr. cbn [rev].
        rewrite rev_involutive, <- !app_assoc. reflexivity.
      * rewrite List.filter_app, filter_rev_none by done. cbn [app List.filter].
        rewrite waitOrFailure_failedLine. cbn [waitOrFailure seq flat_map failureAndWait].
        unfold failureAndWait at 1. rewrite Hlast, Hfilter. reflexivity.
      * apply Nat.eqb_neq in Hlast.
        destruct (meetingService.attemptLoop _ _ _ _ _ _ _ _).1 as [[a|]|e']; lia.
Qed.
End Backoff.

(** * The State Store *)

Section Store.
Context {E : Env}.

Lemma updateProcessingStep_ok logId st md em ed w row :
  storeAvailable E ->
  processing_logs w !! logId = Some row ->
  exists row',
    databaseService.updateProcessingStep logId st md em ed w
    = (Ok row',
       {| meetings := meetings w;
          processing_logs := <[logId := row']> (processing_logs w);
          history := EvDb (UpdateProcessingLog logId st md em ed) :: history w;
          now := now w |})
    /\ log_meeting_id row' = log_meeting_id row
    /\ log_step row' = log_step row
    /\ log_status row' = st
    /\ log_metadata row' = md
    /\ log_completed_at row' = Some (now w)
    /\ (Js.truthy em = true -> log_error_message row' = em).
Proof.
  intros Hdb Hrow.
  unfold databaseService.updateProcessingStep, databaseService.updateLog. run.
  rewrite Hdb. cbn. rewrite Hrow.
  eexists. split; [reflexivity|]. cbn. repeat split; try done.
  intros ->. done.
Qed.

Lemma logProcessingStep_started meetingId step w row :
  storeAvailable E ->
  meetings w !! meetingId = Some row ->
  let logId := fresh (dom (processing_logs w)) in
  let logData :=
    {| log_meeting_id := meetingId; log_step := step; log_status := "started";
       log_metadata := MetaEmpty; log_started_at := now w; log_completed_at := None;
       log_error_message := None; log_error_details := None |} in
  databaseService.logProcessingStep meetingId step "started" MetaEmpty None None w
  = (Ok (logId, logData),
     {| meetings := meetings w;
        processing_logs := <[logId := logData]> (processing_logs w);
        history := EvLog info ("Processing step " +:+ step +:+ ": started")
                   :: EvDb (InsertProcessingLog logId logData) :: history w;
        now := now w |})
  /\ processing_logs w !! logId = None.
Proof.
  intros Hdb Hrow. cbn zeta. split.
  - unfold databaseService.logProcessingStep, databaseService.insertLog. run.
    rewrite Hdb. cbn. rewrite Hrow. reflexivity.
  - apply not_elem_of_dom, is_fresh.
Qed.

Lemma updateMeeting_ok meetingId updates w row :
  storeAvailable E ->
  meetings w !! meetingId = Some row ->
  let updates' := <["updated_at" := VTime (now w)]> updates in
  databaseService.updateMeeting meetingId updates w
  = (Ok (updates' ∪ row),
     {| meetings := <[meetingId := updates' ∪ row]> (meetings w);
        processing_logs := processing_logs w;
        history := EvLog info "Meeting updated in database"
                   :: EvDb (UpdateMeeting meetingId updates') :: history w;
        now := now w |}).
Proof.
  intros Hdb Hrow. cbn zeta.
  unfold databaseService.updateMeeting, databaseService.updateRow. run.
  rewrite Hdb. cbn. rewrite Hrow. reflexivity.
Qed.

Lemma getMeetingById_ok meetingId w row :
  storeAvailable E ->
  meetings w !! meetingId = Some row ->
  databaseService.getMeetingById meetingId w
  = (Ok (Some row),
     {| meetings := meetings w; processing_logs := processing_logs w;
        history := EvDb (SelectMeetingById meetingId) :: history w; now := now w |}).
Proof.
  intros Hdb Hrow.
  unfold databaseService.getMeetingById, databaseService.selectById. run.
  rewrite Hdb. cbn. rewrite Hrow. reflexivity.
Qed.
Lemma updateProcessingStep_row logId st md em ed w row :
  storeAvailable E ->
  processing_logs w !! logId = Some row ->
  let row' :=
    {| log_meeting_id := log_meeting_id row; log_step := log_step row;
       log_status := st; log_metadata := md;
       log_started_at := log_started_at row;
       log_completed_at := Some (now w);
       log_error_message := if Js.truthy em then em else log_error_message row;
       log_error_details := if Js.truthy ed then ed else log_error_details row |} in
  databaseService.updateProcessingStep logId st md em ed w
  = (Ok row',
     {| meetings := meetings w;
        processing_logs := <[logId := row']> (processing_logs w);
        history := EvDb (UpdateProcessingLog logId st md em ed) :: history w;
        now := now w |}).
Proof.
  intros Hdb Hrow. cbn zeta.
  unfold databaseService.updateProcessingStep, databaseService.updateLog. run.
  rewrite Hdb. cbn. rewrite Hrow. reflexivity.
Qed.
End Store.

Lemma line_is_not_attempting stepName status :
  status <> "attempting" ->
  ofExecutor stepName (EvLog info ("Processing step " +:+ stepName +:+ ": " +:+ status))
  = false.
Proof.
  intros Hne. cbn [ofExecutor]. apply String.eqb_neq. intros Heq.
  do 3 apply (inj (String.app _)) in Heq. done.
Qed.

Lemma ofExecutor_attemptingLine stepName : ofExecutor stepName (attemptingLine stepName) = true.
Proof. apply String.eqb_refl. Qed.

Lemma ofExecutor_failedLine stepName attempt maxRetries :
  ofExecutor stepName (failedLine stepName attempt maxRetries) = true.
Proof. exact (waitOrFailure_failedLine stepName attempt maxRetries). Qed.

Section StepRecords.
Context {E : Env} {A : Type} `{Describe A}.
Variables (meetingId stepName : string) (f : M A) (maxRetries logId : nat).
Hypothesis Hdb : storeAvailable E.
Hypothesis Hkeep : keepsLogs f.
Hypothesis Hquiet : Adds (notOfExecutor stepName) f.

(** The loop from attempt [attempt] on, the attempts before it having
    failed: [k] more attempts fail, then the loop closes the record. *)
Lemma attemptLoop_trace remaining :
  forall attempt w row0,
    (attempt + remaining = S maxRetries)%nat ->
    (1 <= attempt)%nat -> (1 <= remaining)%nat ->
    processing_logs w !! logId = Some row0 ->
    log_error_message row0 = None ->
    let r := meetingService.attemptLoop meetingId stepName f maxRetries logId
               remaining attempt w in
    exists row evs k closing starts,
      processing_logs r.2 = <[logId := row]> (processing_logs w)
      /\ history r.2 = rev evs ++ history w
      /\ List.filter (ofExecutor stepName) evs
         = flat_map (failedAttempt stepName maxRetries) (seq attempt k) ++ closing
      /\ length starts = k
      /\ Forall (fun w' => exists e, (f w').1 = Throw e) starts
      /\ log_meeting_id row = log_meeting_id row0
      /\ log_step row = log_step row0
      /\ log_started_at row = log_started_at row0
      /\ log_completed_at row = Some (now r.2)
      /\ finalised f stepName maxRetries logId r.1 (attempt - 1 + k) closing row.
Proof.
  induction remaining as [|remaining' IH];
    intros attempt w row0 Hsum Hatt Hrem Hrow Hmsg; [lia|].
  cbn zeta. simpl meetingService.attemptLoop. run.
  match goal with |- context [f ?w0] =>
    remember w0 as w1 eqn:Hw1;
    pose proof (Hkeep w1) as Hk; destruct (Hquiet w1) as (newf & Hhf & Hqf);
    destruct (f w1) as [[a|e] w2] eqn:Hfw
  end; rewrite Hw1 in Hk, Hhf; cbn [fst snd history processing_logs] in Hk, Hhf |- *.
  - rewrite (updateProcessingStep_row logId "completed"
               (MetaCompleted attempt (Js.substring0 100 (describe a))) None None w2 row0 Hdb)
      by (by rewrite Hk).
    cbn [fst snd history processing_logs now].
    eexists _, (attemptingLine stepName :: rev newf
                ++ [EvDb (UpdateProcessingLog logId "completed"
                            (MetaCompleted attempt (Js.substring0 100 (describe a))) None None);
                    EvLog info ("Processing step " +:+ stepName +:+ ": " +:+ "completed")]),
      0%nat,
      [attemptingLine stepName;
       EvDb (UpdateProcessingLog logId "completed"
               (MetaCompleted attempt (Js.substring0 100 (describe a))) None None)],
      [].
    split; [by rewrite Hk|]. split; [|split; [|repeat split; try by constructor]].
    + rewrite Hhf. cbn [rev]. rewrite rev_app_distr. cbn [rev app].
      rewrite rev_involutive, <- !app_assoc. reflexivity.
    + cbn [List.filter]. rewrite ofExecutor_attemptingLine, List.filter_app.
      rewrite filter_rev_none by done. cbn [List.filter app seq flat_map].
      rewrite (line_is_not_attempting stepName "completed") by done. reflexivity.
    + lia.
    + exists w1. by rewrite Hfw.
    + replace (S (attempt - 1 + 0)) with attempt by lia. reflexivity.
    + replace (S (attempt - 1 + 0)) with attempt by lia. reflexivity.
    + exact Hmsg.
  - destruct (attempt =? maxRetries)%nat eqn:Hlast.
    + apply Nat.eqb_eq in Hlast. subst attempt.
      match goal with |- context [databaseService.updateProcessingStep _ _ _ _ _ ?w3] =>
        rewrite (updateProcessingStep_row logId "failed" (MetaFailed maxRetries maxRetries)
                   (Some (message e)) (Some "stack") w3 row0 Hdb)
          by (cbn; by rewrite Hk)
      end.
      cbn [fst snd history processing_logs now].
      eexists _, (attemptingLine stepName :: rev newf
                  ++ [failedLine stepName maxRetries maxRetries;
                      EvDb (UpdateProcessingLog logId "failed"
                              (MetaFailed maxRetries maxRetries)
                              (Some (message e)) (Some "stack"))]),
        1%nat,
        [EvDb (UpdateProcessingLog logId "failed" (MetaFailed maxRetries maxRetries)
                 (Some (message e)) (Some "stack"))],
        [w1].
      assert (Hthrew : exists e', (f w1).1 = Throw e') by (exists e; by rewrite Hfw).
      split; [by rewrite Hk|].
      split; [|split; [|repeat split; try by repeat constructor]].
      * rewrite Hhf. cbn [rev]. rewrite rev_app_distr. cbn [rev app].
        rewrite rev_involutive, <- !app_assoc. reflexivity.
      * cbn [List.filter]. rewrite ofExecutor_attemptingLine, List.filter_app.
        rewrite filter_rev_none by done. cbn [List.filter app seq flat_map].
        rewrite ofExecutor_failedLine. cbn [ofExecutor failedAttempt failureAndWait app].
        rewrite Nat.eqb_refl. reflexivity.
      * lia.
      * exists w1. by rewrite Hfw.
      * cbn. by rewrite Hmsg.
    + apply Nat.eqb_neq in Hlast.
      match goal with |- context [meetingService.attemptLoop _ _ _ _ _ _ _ ?w3] =>
        destruct (IH (S attempt) w3 row0)
          as (row & evs & k & closing & starts & Hlogs & Hh & Hfilter & Hlen & Hthrew
              & Hm & Hs & Hst & Hc & Hfin);
          [lia|lia|lia|cbn; by rewrite Hk|done|]
      end.
      exists row, (attemptingLine stepName :: rev newf
                   ++ failedLine stepName attempt maxRetries
                   :: EvLog info ("Retrying step " +:+ stepName +:+ " in "
                                  +:+ pretty (meetingService.backoffMs attempt) +:+ "ms")
                   :: EvSleep (meetingService.backoffMs attempt) :: evs),
        (S k), closing, (w1 :: starts).
      split; [rewrite Hlogs; cbn; by rewrite Hk|].
      split; [|split; [|repeat split; try done]].
      * rewrite Hh. cbn [history]. rewrite Hhf. cbn [rev]. rewrite rev_app_distr. cbn [rev].
        rewrite rev_involutive, <- !app_assoc. reflexivity.
      * cbn [List.filter]. rewrite ofExecutor_attemptingLine, List.filter_app.
        rewrite filter_rev_none by done. cbn [List.filter app].
        rewrite ofExecutor_failedLine. cbn [ofExecutor seq flat_map].
        unfold failedAttempt at 1, failureAndWait at 1.
        rewrite (proj2 (Nat.eqb_neq _ _) Hlast), Hfilter. reflexivity.
      * cbn. by rewrite Hlen.
      * constructor; [|done]. exists e. by rewrite Hfw.
      * replace (attempt - 1 + S k)%nat with (S attempt - 1 + k)%nat by lia. exact Hfin.
Qed.
End StepRecords.

(** The transfer sets no timer and writes no report of the executor. *)
Lemma stream_neither_waits_nor_reports {E : Env} stepName url title :
  Adds (noWaitOrFailure stepName) (fileService.streamRecordingToGoogleDrive url title).
Proof. adds_with ltac:(reflexivity). Qed.



(** Three failed attempts: two waits, of 2 s and of 4 s, each after the
    report of the attempt that failed. *)
Example three_failures_two_waits :
  let r := meetingService.processStep (E:=Samples.expiredEnv) "m1" "stream_to_drive"
             (fileService.streamRecordingToGoogleDrive (E:=Samples.expiredEnv)
                   Samples.recordingUrl "Standup")
             3 Samples.completedWorld in
  List.filter (waitOrFailure "stream_to_drive") (rev (history r.2))
  = [ EvLog error "Step stream_to_drive failed (attempt 1/3)"; EvSleep 2000;
      EvLog error "Step stream_to_drive failed (attempt 2/3)"; EvSleep 4000;
      EvLog error "Step stream_to_drive failed (attempt 3/3)" ]
  /\ now r.2 = now Samples.completedWorld + 6000.
Proof. vm_compute. split; reflexivity. Qed.

Ltac classify :=
  unfold transferError, sourceExpired; repeat split; intros; try tauto; try congruence;
  match goal with
  | H : _ \/ _ |- exists _, _ =>
      destruct H as [H|H]; rewrite H; eexists; (split; reflexivity)
  end.

Lemma makeFileShareable_ok {E : Env} fileId w :
  exists b w', fileService.makeFileShareable fileId w = (Ok b, w').
Proof.
  unfold fileService.makeFileShareable. run.
  destruct (drive_permission_reply _); eauto.
Qed.

(** The cause of a failed transfer, and what is thrown for it. *)
Lemma stream_failure_cause {E : Env} (recordingUrl meetingTitle : string)
    (w : World) (e : JsError) :
  (fileService.streamRecordingToGoogleDrive recordingUrl meetingTitle w).1 = Throw e ->
  exists cause h,
    (http_reply h = Throw cause \/ drive_create_reply h = Throw cause)
    /\ transferError cause e.
Proof.
  unfold fileService.streamRecordingToGoogleDrive. run.
  match goal with |- context [http_reply ?h] => destruct (http_reply h) as [resp|cause] eqn:Hhttp end.
  - match goal with |- context [drive_create_reply ?h] =>
      destruct (drive_create_reply h) as [data|cause] eqn:Hdrive end.
    + match goal with |- context [fileService.makeFileShareable ?i ?w1] =>
        destruct (makeFileShareable_ok i w1) as (b & w' & ->) end.
      cbn. discriminate.
    + cbn. intros He. do 2 eexists. split; [right; exact Hdrive|].
      repeat case_decide; simplify_eq/=; classify.
  - cbn. intros He. do 2 eexists. split; [left; exact Hhttp|].
    repeat case_decide; simplify_eq/=; classify.
Qed.

(** What [streamRecordingToGoogleDrive] returns or throws, by the
    answers to its two requests: a failure of the download, and
    equally one of the upload, reaches the caller as the error the
    [catch] makes of it; with both answered the file is returned. *)
Lemma stream_outcome {E : Env} (recordingUrl meetingTitle : string) (w : World) :
  let r := (fileService.streamRecordingToGoogleDrive recordingUrl meetingTitle w).1 in
  match http_reply (downloadAsked recordingUrl w) with
  | Throw cause => exists e, r = Throw e /\ transferError cause e
  | Ok response =>
      match drive_create_reply (uploadAsked recordingUrl meetingTitle w) with
      | Throw cause => exists e, r = Throw e /\ transferError cause e
      | Ok data =>
          exists file, r = Ok file
                       /\ file_id file = drive_id data
                       /\ file_name file = drive_name data
                       /\ file_webViewLink file = drive_webViewLink data
      end
  end.
Proof.
  cbn zeta. unfold fileService.streamRecordingToGoogleDrive, downloadAsked, uploadAsked. run.
  cbn [history].
  destruct (http_reply _) as [resp|cause].
  - cbn [history]. destruct (drive_create_reply _) as [data|cause].
    + match goal with |- context [fileService.makeFileShareable ?i ?w1] =>
        destruct (makeFileShareable_ok i w1) as (b & w' & ->) end.
      cbn. eexists. repeat split.
    + cbn. repeat case_decide; cbn; eexists; (split; [reflexivity|]); classify.
  - cbn. repeat case_decide; cbn; eexists; (split; [reflexivity|]); classify.
Qed.

(** C8.  The [catch] of [streamRecordingToGoogleDrive] looks at the
    status of whatever failed in its [try] block, the download or the
    upload.  So when the recording has been served and it is the file
    store that refuses to create the file, with 403 or 404, the error
    handed to the caller says that the recording URL has expired or is
    not accessible, where the claim has a failure other than that of
    the source propagate as a generic error. *)
Theorem upload_refusal_is_reported_as_expired_link {E : Env}
    (recordingUrl meetingTitle : string) (w : World)
    (response : HttpStream) (cause : JsError) (status : Z) :
  http_reply (downloadAsked recordingUrl w) = Ok response ->
  drive_create_reply (uploadAsked recordingUrl meetingTitle w) = Throw cause ->
  response_status cause = Some status ->
  status = 403 \/ status = 404 ->
  (fileService.streamRecordingToGoogleDrive recordingUrl meetingTitle w).1
  = Throw (Error (fileService.expiredMessage status)).
Proof.
  intros Hdownload Hupload Hstatus Hrefused.
  pose proof (stream_outcome recordingUrl meetingTitle w) as Hout. cbn zeta in Hout.
  rewrite Hdownload, Hupload in Hout.
  destruct Hout as (e & -> & Hexpired & _).
  destruct Hexpired as (status' & Hs & ->).
  - unfold sourceExpired. rewrite Hstatus. destruct Hrefused as [->| ->]; auto.
  - congruence.
Qed.

Lemma upload_refusal_is_reported_as_expired_link_witness :
  http_reply (Env:=Samples.uploadRefusedEnv)
    (downloadAsked Samples.recordingUrl Samples.completedWorld)
  = Ok {| content_type := None; content_length := None |}
  /\ drive_create_reply (Env:=Samples.uploadRefusedEnv)
       (uploadAsked Samples.recordingUrl "Standup" Samples.completedWorld)
     = Throw Samples.quotaExceeded
  /\ response_status Samples.quotaExceeded = Some 403
  /\ (403 = 403 \/ 403 = 404)
  /\ (fileService.streamRecordingToGoogleDrive (E:=Samples.uploadRefusedEnv)
        Samples.recordingUrl "Standup" Samples.completedWorld).1
     = Throw (Error (fileService.expiredMessage 403)).
Proof.
  assert (H1 : http_reply (Env:=Samples.uploadRefusedEnv)
                 (downloadAsked Samples.recordingUrl Samples.completedWorld)
               = Ok {| content_type := None; content_length := None |}) by reflexivity.
  assert (H2 : drive_create_reply (Env:=Samples.uploadRefusedEnv)
                 (uploadAsked Samples.recordingUrl "Standup" Samples.completedWorld)
               = Throw Samples.quotaExceeded) by reflexivity.
  assert (H3 : response_status Samples.quotaExceeded = Some 403) by reflexivity.
  assert (H4 : 403 = 403 \/ 403 = 404) by (left; reflexivity).
  split; [exact H1|]. split; [exact H2|]. split; [exact H3|]. split; [exact H4|].
  exact (upload_refusal_is_reported_as_expired_link (E:=Samples.uploadRefusedEnv)
           Samples.recordingUrl "Standup" Samples.completedWorld _ _ 403 H1 H2 H3 H4).
Defined.

(** The same through the transfer step of the pipeline: after three
    attempts, each refused by the file store, the caller of the step
    gets the error about the recording URL, and that is what the
    attempt record keeps. *)
Example upload_refusal_through_the_transfer_step :
  let r := meetingService.processStep (E:=Samples.uploadRefusedEnv) "m1" "stream_to_drive"
             (fileService.streamRecordingToGoogleDrive (E:=Samples.uploadRefusedEnv)
                Samples.recordingUrl "Standup") 3 Samples.completedWorld in
  r.1 = Throw (Error "Recording URL has expired or is not accessible (403)")
  /\ (log_error_message <$> (processing_logs r.2 !! 0%nat))
     = Some (Some "Recording URL has expired or is not accessible (403)").
Proof. vm_compute. split; reflexivity. Qed.

Section StepOutcome.
Context {E : Env} {A : Type} `{Describe A}.
Variables (meetingId stepName : string) (f : M A) (maxRetries logId : nat).

(** With at least one attempt allowed the loop ends in a [return] or
    in a [throw], never by running out. *)
Lemma attemptLoop_defined remaining :
  forall attempt w,
    (attempt + remaining = S maxRetries)%nat -> (1 <= remaining)%nat ->
    (meetingService.attemptLoop meetingId stepName f maxRetries logId
       remaining attempt w).1 <> Ok None.
Proof.
  induction remaining as [|r IH]; intros attempt w Hsum Hrem; [lia|].
  simpl meetingService.attemptLoop. rewrite tryCatch_run.
  match goal with |- context [match ?m w with _ => _ end] =>
    assert (Hbody : forall w', m w <> (Ok None, w'));
      [|destruct (m w) as [[[a|]|e] w1] eqn:Hm]
  end.
  { intros w'. run. destruct (f _) as [[b|e] w1]; [|done].
    destruct (databaseService.updateProcessingStep _ _ _ _ _ _) as [[row|e] w2]; done. }
  - done.
  - by destruct (Hbody w1).
  - rewrite bind_run. cbn [logger.log emit].
    destruct (attempt =? maxRetries)%nat eqn:Hlast.
    + rewrite bind_run.
      destruct (databaseService.updateProcessingStep _ _ _ _ _ _) as [[row|e'] w2]; done.
    + apply Nat.eqb_neq in Hlast. run. apply IH; lia.
Qed.

(** With the store answering, what the loop throws is what the unit
    of work threw at its last attempt. *)
Lemma attemptLoop_throws_unit_error remaining :
  storeAvailable E -> keepsLogs f ->
  forall attempt w row0 e,
    (attempt + remaining = S maxRetries)%nat ->
    processing_logs w !! logId = Some row0 ->
    (meetingService.attemptLoop meetingId stepName f maxRetries logId
       remaining attempt w).1 = Throw e ->
    exists w', (f w').1 = Throw e.
Proof.
  intros Hdb Hf.
  induction remaining as [|r IH]; intros attempt w row0 e Hsum Hrow; [done|].
  simpl meetingService.attemptLoop. run.
  match goal with |- context [f ?w1] =>
    pose proof (Hf w1) as Hkeep; destruct (f w1) as [[a|e0] w2] eqn:Hfw end;
    cbn in Hkeep |- *.
  - destruct (updateProcessingStep_ok logId "completed"
                (MetaCompleted attempt (Js.substring0 100 (describe a))) None None w2 row0 Hdb)
      as (row' & Heq & _); [by rewrite Hkeep|].
    rewrite Heq. done.
  - destruct (attempt =? maxRetries)%nat eqn:Hlast.
    + match goal with |- context [databaseService.updateProcessingStep _ _ _ _ _ ?w3] =>
        destruct (updateProcessingStep_ok logId "failed" (MetaFailed attempt maxRetries)
                    (Some (message e0)) (Some "stack") w3 row0 Hdb)
          as (row' & Heq & _); [cbn; by rewrite Hkeep|]
      end.
      rewrite Heq. cbn. intros [= <-]. eexists. by rewrite Hfw.
    + match goal with |- context [meetingService.attemptLoop _ _ _ _ _ _ _ ?w3] =>
        intros Hthrow; apply (IH (S attempt) w3 row0 e); [lia|cbn; by rewrite Hkeep|done]
      end.
Qed.
End StepOutcome.

Section StepOutcomeOfProcessStep.
Context {E : Env} {A : Type} `{Describe A}.

(** Hence the value of a step that returns is never [undefined]. *)
Lemma processStep_defined meetingId stepName (f : M A) maxRetries w :
  (1 <= maxRetries)%nat ->
  (meetingService.processStep meetingId stepName f maxRetries w).1 <> Ok None.
Proof.
  intros HN. unfold meetingService.processStep. rewrite bind_run.
  destruct (databaseService.logProcessingStep _ _ _ _ _ _ _) as [[log|e] w1]; [|done].
  apply attemptLoop_defined; lia.
Qed.

(** A failing step hands its caller the error of its unit of work. *)
Lemma processStep_throws_unit_error meetingId stepName (f : M A) maxRetries w row e :
  storeAvailable E -> keepsLogs f ->
  meetings w !! meetingId = Some row ->
  (meetingService.processStep meetingId stepName f maxRetries w).1 = Throw e ->
  exists w', (f w').1 = Throw e.
Proof.
  intros Hdb Hf Hrow.
  destruct (logProcessingStep_started meetingId stepName w row Hdb Hrow) as [Hrun _].
  unfold meetingService.processStep. rewrite bind_run, Hrun. cbn [fst].
  eapply attemptLoop_throws_unit_error; [done|done|lia|apply lookup_insert_eq].
Qed.
End StepOutcomeOfProcessStep.

(** Rules for [keepsLogs]. *)
Section KeepsLogs.
Context {A B : Type}.

Lemma keepsLogs_bind (m : M A) (k : A -> M B) :
  keepsLogs m -> (forall a, keepsLogs (k a)) -> keepsLogs (bind m k).
Proof.
  intros Hm Hk w. rewrite bind_run. specialize (Hm w).
  destruct (m w) as [[a|e] w1]; [|exact Hm].
  rewrite (Hk a w1). exact Hm.
Qed.

Lemma keepsLogs_tryCatch (m : M A) (h : JsError -> M A) :
  keepsLogs m -> (forall e, keepsLogs (h e)) -> keepsLogs (tryCatch m h).
Proof.
  intros Hm Hh w. rewrite tryCatch_run. specialize (Hm w).
  destruct (m w) as [[a|e] w1]; [exact Hm|].
  rewrite (Hh e w1). exact Hm.
Qed.

Lemma keepsLogs_reply (answer : list Event -> Res A) : keepsLogs (reply answer).
Proof. intros w. reflexivity. Qed.

Lemma keepsLogs_fault answer : keepsLogs (fault answer).
Proof. intros w. unfold fault. by destruct (answer _). Qed.
End KeepsLogs.

Ltac keeps_logs :=
  repeat first
    [ apply keepsLogs_bind; [|intros ?]
    | apply keepsLogs_tryCatch; [|intros ?]
    | apply keepsLogs_reply
    | apply keepsLogs_fault
    | match goal with |- keepsLogs (if ?c then _ else _) => destruct c end
    | (intros ?; reflexivity) ].

(** The transfer does not touch the attempt records. *)
Lemma stream_keepsLogs {E : Env} url title :
  keepsLogs (fileService.streamRecordingToGoogleDrive url title).
Proof.
  unfold fileService.streamRecordingToGoogleDrive, fileService.makeFileShareable.
  keeps_logs.
Qed.

(** The transfer step of the pipeline hands the classified error on to
    its caller once its attempts are used up. *)
Lemma transfer_step_failure_is_classified {E : Env} meetingId recordingUrl meetingTitle
    maxRetries w row e :
  storeAvailable E ->
  meetings w !! meetingId = Some row ->
  (meetingService.processStep meetingId "stream_to_drive"
     (fileService.streamRecordingToGoogleDrive recordingUrl meetingTitle) maxRetries w).1
  = Throw e ->
  exists cause h,
    (http_reply h = Throw cause \/ drive_create_reply h = Throw cause)
    /\ transferError cause e.
Proof.
  intros Hdb Hrow Hthrow.
  destruct (processStep_throws_unit_error _ _ _ _ _ _ _ Hdb (stream_keepsLogs _ _) Hrow Hthrow)
    as [w' Hunit].
  exact (stream_failure_cause _ _ _ _ Hunit).
Qed.

(** The transfer does none of what the executor does. *)
Lemma stream_notOfExecutor {E : Env} stepName url title :
  Adds (notOfExecutor stepName) (fileService.streamRecordingToGoogleDrive url title).
Proof. adds_with ltac:(reflexivity). Qed.

(** Without the meeting's row there is nothing to attach the record to:
    the insert is refused, no record is created and the unit of work is
    not run. *)
Lemma processStep_needs_the_meeting {E : Env} {A : Type} `{Describe A}
    (meetingId stepName : string) (f : M A) (maxRetries : nat) (w : World) :
  storeAvailable E ->
  meetings w !! meetingId = None ->
  let r := meetingService.processStep meetingId stepName f maxRetries w in
  r.1 = Throw databaseService.foreignKeyViolation
  /\ processing_logs r.2 = processing_logs w
  /\ history r.2
     = EvLog error "Failed to log processing step"
       :: EvDb (InsertProcessingLog (fresh (dom (processing_logs w)))
                  (startedRecord meetingId stepName (now w)))
       :: history w.
Proof.
  intros Hdb Hrow. cbn zeta.
  unfold meetingService.processStep, databaseService.logProcessingStep,
    databaseService.insertLog. run.
  rewrite Hdb. cbn. rewrite Hrow. done.
Qed.



(** Two failed attempts, then a success: one record, completed by
    attempt 3. *)
Example third_attempt_completes_the_record :
  let r := meetingService.processStep (E:=Samples.flakyEnv) "m1" "stream_to_drive"
             (fileService.streamRecordingToGoogleDrive (E:=Samples.flakyEnv)
                Samples.recordingUrl "Standup") 3 Samples.completedWorld in
  List.filter (ofExecutor "stream_to_drive") (rev (history r.2))
  = [ EvDb (InsertProcessingLog 0 (startedRecord "m1" "stream_to_drive" 1000));
      EvLog info "Processing step stream_to_drive: attempting";
      EvLog error "Step stream_to_drive failed (attempt 1/3)"; EvSleep 2000;
      EvLog info "Processing step stream_to_drive: attempting";
      EvLog error "Step stream_to_drive failed (attempt 2/3)"; EvSleep 4000;
      EvLog info "Processing step stream_to_drive: attempting";
      EvDb (UpdateProcessingLog 0 "completed" (MetaCompleted 3 "object") None None) ]
  /\ size (processing_logs r.2) = 1%nat
  /\ (log_metadata <$> (processing_logs r.2 !! 0%nat)) = Some (MetaCompleted 3 "object").
Proof. vm_compute. repeat split; reflexivity. Qed.


Ltac unfold_services :=
  unfold meetingService.processRecordingUrgently_catch,
    errorHandler.handleCriticalError, notificationService.sendCriticalAlert,
    notificationService.postMessage, databaseService.updateMeeting,
    databaseService.updateRow, databaseService.getMeetingById, databaseService.selectById.

(** Opens [exists new, h = new ++ h0] for a history [h] written out. *)
Ltac split_history :=
  first [ by eexists [] | by eexists [_] | by eexists [_; _] | by eexists [_; _; _]
        | by eexists [_; _; _; _] | by eexists [_; _; _; _; _]
        | by eexists [_; _; _; _; _; _] | by eexists [_; _; _; _; _; _; _] ].

Lemma updated_text (updates row : Row) (column s : string) :
  updates !! column = Some (VText s) -> text_of (updates ∪ row) column = Some s.
Proof. intros Hc. unfold text_of. by rewrite (lookup_union_Some_l _ _ _ _ Hc). Qed.

Lemma updated_time (updates row : Row) (column : string) (t : Z) :
  updates !! column = Some (VTime t) -> time_of (updates ∪ row) column = Some t.
Proof. intros Hc. unfold time_of. by rewrite (lookup_union_Some_l _ _ _ _ Hc). Qed.

Lemma catch_block {E : Env} (meetingId : string) (e : JsError) (w1 : World) :
  let r := meetingService.processRecordingUrgently_catch meetingId e w1 in
  let update :=
    EvDb (UpdateMeeting meetingId
            (<["updated_at" := VTime (now w1)]> (meetingService.failedUpdates (now w1)))) in
  let alert := EvSlackPost notificationService.alertText [meetingId; "urgent_processing"; message e] in
  r.1 = Throw e
  /\ (exists afterAlert, exists betweenThem,
        history r.2 = afterAlert ++ alert :: betweenThem ++ update :: history w1
        /\ match slack_reply (alert :: betweenThem ++ update :: history w1) with
           | Ok _ => True
           | Throw _ => In (EvLog error "Failed to send critical alert") afterAlert
           end)
  /\ (db_fault (update :: history w1) = None ->
      forall row, meetings w1 !! meetingId = Some row ->
        exists row', meetings r.2 !! meetingId = Some row'
                     /\ text_of row' "status" = Some "failed"
                     /\ time_of row' "processing_completed_at" = Some (now w1)).
Proof.
  cbn zeta. unfold_services. run.
  destruct (db_fault _) as [dbError|] eqn:Hdb; cbn;
    [|destruct (meetings w1 !! meetingId) as [row|] eqn:Hrow; cbn];
    destruct (slack_reply _) eqn:Hslack; cbn; (split; [done|]); split;
    try discriminate;
    try (intros _ ? [= <-]; eexists; (split; [apply lookup_insert_eq|]);
         (split; [by apply updated_text|by apply updated_time]));
    (eexists [_; _]);
    first [ eexists [_; _]; split; [reflexivity|]
          | eexists [_; _; _]; split; [reflexivity|]
          | eexists [_; _; _; _]; split; [reflexivity|]
          | eexists [_; _; _; _; _]; split; [reflexivity|] ];
    cbn [app]; rewrite Hslack; cbn; tauto.
Qed.

(** C4. When a run of the pipeline fails, the error that
    [processRecordingUrgently] throws is the error of its [try] block;
    before the alert is posted the update to [status = 'failed'] with
    [processing_completed_at] has been sent, and where the store took
    it the meeting is [failed] with that timestamp; a failure of the
    alert is logged and changes nothing of this. *)
Theorem failure_is_persisted_alerted_and_rethrown {E : Env}
    (meetingId : string) (recordingUrl : option string) (sessionId : string)
    (w : World) (e : JsError) :
  (meetingService.processRecordingUrgently meetingId recordingUrl sessionId w).1 = Throw e ->
  let attempt :=
    meetingService.processRecordingUrgently_try (now w) meetingId recordingUrl sessionId w in
  let r := meetingService.processRecordingUrgently meetingId recordingUrl sessionId w in
  let update :=
    EvDb (UpdateMeeting meetingId
            (<["updated_at" := VTime (now attempt.2)]>
               (meetingService.failedUpdates (now attempt.2)))) in
  let alert := EvSlackPost notificationService.alertText [meetingId; "urgent_processing"; message e] in
  attempt.1 = Throw e
  /\ (exists afterAlert, exists betweenThem,
        history r.2 = afterAlert ++ alert :: betweenThem ++ update :: history attempt.2
        /\ match slack_reply (alert :: betweenThem ++ update :: history attempt.2) with
           | Ok _ => True
           | Throw _ => In (EvLog error "Failed to send critical alert") afterAlert
           end)
  /\ (db_fault (update :: history attempt.2) = None ->
      forall row, meetings attempt.2 !! meetingId = Some row ->
        exists row', meetings r.2 !! meetingId = Some row'
                     /\ text_of row' "status" = Some "failed"
                     /\ time_of row' "processing_completed_at" = Some (now attempt.2)).
Proof.
  cbn zeta. unfold meetingService.processRecordingUrgently.
  rewrite bind_run. cbn [dateNow readWorld]. rewrite tryCatch_run.
  destruct (meetingService.processRecordingUrgently_try (now w) meetingId recordingUrl
              sessionId w) as [[a|e0] w1]; cbn [fst snd]; [discriminate|].
  intros He. destruct (catch_block meetingId e0 w1) as (Hthrow & Hhist & Hstore).
  rewrite Hthrow in He. injection He as <-. auto.
Qed.

Lemma failure_is_persisted_alerted_and_rethrown_witness :
  let e := Error (fileService.expiredMessage 403) in
  let attempt :=
    meetingService.processRecordingUrgently_try (E:=Samples.expiredEnv)
      (now Samples.completedWorld) "m1" (Some Samples.recordingUrl) "s1"
      Samples.completedWorld in
  let r := meetingService.processRecordingUrgently (E:=Samples.expiredEnv) "m1"
             (Some Samples.recordingUrl) "s1" Samples.completedWorld in
  let update :=
    EvDb (UpdateMeeting "m1"
            (<["updated_at" := VTime (now attempt.2)]>
               (meetingService.failedUpdates (now attempt.2)))) in
  let alert := EvSlackPost notificationService.alertText ["m1"; "urgent_processing"; message e] in
  r.1 = Throw e
  /\ attempt.1 = Throw e
  /\ (exists afterAlert, exists betweenThem,
        history r.2 = afterAlert ++ alert :: betweenThem ++ update :: history attempt.2
        /\ match slack_reply (Env:=Samples.expiredEnv)
                   (alert :: betweenThem ++ update :: history attempt.2) with
           | Ok _ => True
           | Throw _ => In (EvLog error "Failed to send critical alert") afterAlert
           end)
  /\ (db_fault (Env:=Samples.expiredEnv) (update :: history attempt.2) = None ->
      forall row, meetings attempt.2 !! "m1" = Some row ->
        exists row', meetings r.2 !! "m1" = Some row'
                     /\ text_of row' "status" = Some "failed"
                     /\ time_of row' "processing_completed_at" = Some (now attempt.2)).
Proof.
  cbn zeta.
  assert (H : (meetingService.processRecordingUrgently (E:=Samples.expiredEnv) "m1"
                 (Some Samples.recordingUrl) "s1" Samples.completedWorld).1
              = Throw (Error (fileService.expiredMessage 403))) by (vm_compute; reflexivity).
  split; [exact H|].
  exact (failure_is_persisted_alerted_and_rethrown (E:=Samples.expiredEnv) "m1"
           (Some Samples.recordingUrl) "s1" Samples.completedWorld _ H).
Defined.

(** * Events that a computation is sure to emit *)

Lemma emits_emit ev : Emits ev (emit ev).
Proof. intros w. exists [ev]. split; [done|]. by left. Qed.

Lemma emits_bind_l {A B} ev (m : M A) (k : A -> M B) :
  Emits ev m -> (forall a, Adds anyEvent (k a)) -> Emits ev (bind m k).
Proof.
  intros Hm Hk w. rewrite bind_run. destruct (Hm w) as (n1 & H1 & I1).
  destruct (m w) as [[a|e] w1]; cbn in *; [|eauto].
  destruct (Hk a w1) as (n2 & H2 & _). exists (n2 ++ n1).
  rewrite H2, H1, app_assoc. split; [done|]. apply in_or_app. auto.
Qed.

Lemma emits_tryCatch_l {A} ev (m : M A) h :
  Emits ev m -> (forall e, Adds anyEvent (h e)) -> Emits ev (tryCatch m h).
Proof.
  intros Hm Hh w. rewrite tryCatch_run. destruct (Hm w) as (n1 & H1 & I1).
  destruct (m w) as [[a|e] w1]; cbn in *; [eauto|].
  destruct (Hh e w1) as (n2 & H2 & _). exists (n2 ++ n1).
  rewrite H2, H1, app_assoc. split; [done|]. apply in_or_app. auto.
Qed.

(** After an [emit], which cannot fail. *)
Lemma emits_after_emit {B} ev ev' (k : unit -> M B) :
  Emits ev (k tt) -> Emits ev (bind (emit ev') k).
Proof.
  intros Hk w. rewrite bind_run. cbn.
  match goal with |- context [k tt ?w1] => destruct (Hk w1) as (n & Hn & In1) end.
  exists (n ++ [ev']). rewrite Hn. cbn. rewrite <- app_assoc. split; [done|].
  apply in_or_app. auto.
Qed.

Lemma emits_after_read {A B} ev (g : World -> A) (k : A -> M B) :
  (forall a, Emits ev (k a)) -> Emits ev (bind (readWorld g) k).
Proof. intros Hk w. rewrite bind_run. cbn. apply Hk. Qed.

Lemma anyEvent_adds {A} (m : M A) P : Adds P m -> Adds anyEvent m.
Proof. apply adds_weaken. done. Qed.

Lemma tryCatch_bind_ok {A B} (m : M A) (k : A -> M B) h w a w1 :
  m w = (Ok a, w1) -> tryCatch (bind m k) h w = tryCatch (k a) h w1.
Proof. intros Hm. by rewrite tryCatch_run, bind_run, Hm, <- tryCatch_run. Qed.

Lemma bind_ok {A B} (m : M A) (k : A -> M B) w a w1 :
  m w = (Ok a, w1) -> bind m k w = k a w1.
Proof. intros Hm. by rewrite bind_run, Hm. Qed.

Lemma bind_assoc_run {A B C} (m : M A) (k1 : A -> M B) (k2 : B -> M C) w :
  bind (bind m k1) k2 w = bind m (fun a => bind (k1 a) k2) w.
Proof. rewrite !bind_run. by destruct (m w) as [[a|e] w1]. Qed.

Lemma tryCatch_bind_assoc {A B C} (m : M A) (k1 : A -> M B) (k2 : B -> M C) h w :
  tryCatch (bind (bind m k1) k2) h w = tryCatch (bind m (fun a => bind (k1 a) k2)) h w.
Proof. by rewrite !tryCatch_run, bind_assoc_run. Qed.

Section Validation.
Context {E : Env}.

Lemma adds_attemptLoop P {A} `{Describe A} meetingId stepName (f : M A) maxRetries logId :
  (forall l m, P (EvLog l m) = true) -> (forall op, P (EvDb op) = true) ->
  (forall ms, P (EvSleep ms) = true) ->
  Adds P f ->
  forall remaining attempt,
    Adds P (meetingService.attemptLoop meetingId stepName f maxRetries logId remaining attempt).
Proof.
  intros Hlog Hdb Hsl Hf remaining.
  induction remaining as [|r IH]; intros attempt; simpl; adds_with ltac:(auto).
Qed.

Lemma adds_processStep P {A} `{Describe A} meetingId stepName (f : M A) maxRetries :
  (forall l m, P (EvLog l m) = true) -> (forall op, P (EvDb op) = true) ->
  (forall ms, P (EvSleep ms) = true) ->
  Adds P f ->
  Adds P (meetingService.processStep meetingId stepName f maxRetries).
Proof.
  intros Hlog Hdb Hsl Hf. unfold meetingService.processStep.
  apply adds_bind; [adds_with ltac:(auto)|intros ?].
  by apply adds_attemptLoop.
Qed.

Lemma stream_emits_download url title :
  Emits (EvHttpGet url) (fileService.streamRecordingToGoogleDrive url title).
Proof.
  unfold fileService.streamRecordingToGoogleDrive, dateNow.
  apply emits_after_read; intros startTime.
  apply emits_tryCatch_l; [|intros e; adds_with ltac:(reflexivity)].
  unfold logger.logFileOperation, logger.log.
  apply emits_after_emit.
  apply emits_bind_l; [apply emits_emit|intros a; adds_with ltac:(reflexivity)].
Qed.

Lemma attemptLoop_emits {A} `{Describe A} ev meetingId stepName (f : M A)
    maxRetries logId remaining attempt :
  Emits ev f -> Adds anyEvent f ->
  Emits ev (meetingService.attemptLoop meetingId stepName f maxRetries logId
              (S remaining) attempt).
Proof.
  intros Hf Hadds. simpl meetingService.attemptLoop.
  apply emits_tryCatch_l.
  - unfold logger.logProcessingStep at 1. unfold logger.log.
    apply emits_after_emit.
    apply emits_bind_l; [done|intros a; adds_with ltac:(reflexivity)].
  - intros e. apply adds_bind; [adds_with ltac:(reflexivity)|intros _].
    destruct (attempt =? maxRetries)%nat; [adds_with ltac:(reflexivity)|].
    apply adds_bind; [adds_with ltac:(reflexivity)|intros _].
    apply adds_bind; [adds_with ltac:(reflexivity)|intros _].
    by apply adds_attemptLoop.
Qed.

(** The validation step, with the store answering: it returns
    [true]. *)
Lemma validate_step_ok meetingId url w row :
  storeAvailable E ->
  meetings w !! meetingId = Some row ->
  exists w',
    meetingService.processStep meetingId "validate_recording_url"
      (chatterboxService.isRecordingUrlValid url) 3 w = (Ok (Some true), w')
    /\ meetings w' = meetings w
    /\ exists new, history w' = new ++ history w.
Proof.
  intros Hdb Hrow.
  destruct (logProcessingStep_started meetingId "validate_recording_url" w row Hdb Hrow)
    as [Hrun _].
  unfold meetingService.processStep. rewrite bind_run, Hrun. cbn [fst].
  simpl meetingService.attemptLoop.
  unfold chatterboxService.isRecordingUrlValid, chatterboxConfig.isRecordingUrlValid. run.
  match goal with |- context [databaseService.updateProcessingStep ?i ?s ?md ?em ?ed ?w3] =>
    destruct (updateProcessingStep_ok i s md em ed w3
                {| log_meeting_id := meetingId; log_step := "validate_recording_url";
                   log_status := "started"; log_metadata := MetaEmpty;
                   log_started_at := now w; log_completed_at := None;
                   log_error_message := None; log_error_details := None |} Hdb)
      as (row' & Heq & _); [apply lookup_insert_eq|]
  end.
  rewrite Heq. eexists. split; [reflexivity|]. split; [reflexivity|]. cbn.
  by eexists [_; _; _; _; _; _; _].
Qed.
End Validation.

Section ValidationTheorem.
Context {E : Env}.

Ltac norm :=
  cbn [fst snd default from_option id now history meetings processing_logs
       Js.truthy negb].

Lemma pipeline_downloads meetingId url sessionId w row :
  storeAvailable E ->
  meetings w !! meetingId = Some row ->
  url <> "" ->
  exists new,
    history (meetingService.processRecordingUrgently meetingId (Some url) sessionId w).2
    = new ++ history w
    /\ In (EvHttpGet url) new.
Proof.
  intros Hdb Hrow Hurl.
  destruct url as [|c url']; [done|]. set (url := String c url') in *.
  unfold meetingService.processRecordingUrgently.
  rewrite bind_run. cbn [dateNow readWorld].
  unfold meetingService.processRecordingUrgently_try.
  erewrite tryCatch_bind_ok by reflexivity.
  erewrite tryCatch_bind_ok by reflexivity.
  erewrite tryCatch_bind_ok by (apply updateMeeting_ok; [exact Hdb|exact Hrow]).
  erewrite tryCatch_bind_ok
    by (apply getMeetingById_ok; [exact Hdb|apply lookup_insert_eq]).
  cbv beta iota. cbn [Js.truthy negb].
  erewrite tryCatch_bind_ok by reflexivity.
  erewrite tryCatch_bind_ok by reflexivity.
  norm.
  match goal with |- context [tryCatch _ _ ?w4] =>
    destruct (validate_step_ok meetingId url w4
                (<["updated_at" := VTime (now w)]>
                   (meetingService.processingUpdates (Some url) (now w)) ∪ row) Hdb)
      as (w5 & Hvalid & Hmeetings & newV & HhistV); [cbn; apply lookup_insert_eq|]
  end.
  norm.
  erewrite tryCatch_bind_ok by exact Hvalid.
  norm.
  erewrite tryCatch_bind_ok by reflexivity.
  unfold meetingService.processStep at 1.
  rewrite tryCatch_bind_assoc.
  match goal with |- context [databaseService.logProcessingStep meetingId ?s _ _ _ _] =>
    match goal with |- context [tryCatch _ _ ?w6] =>
      destruct (logProcessingStep_started meetingId s w6
                  (<["updated_at" := VTime (now w)]>
                     (meetingService.processingUpdates (Some url) (now w)) ∪ row) Hdb)
        as [Hlog _]; [cbn; rewrite Hmeetings; apply lookup_insert_eq|]
    end
  end.
  erewrite tryCatch_bind_ok by exact Hlog.
  norm.
  match goal with |- context [tryCatch ?m ?h ?w7] =>
    assert (Hemits : Emits (EvHttpGet url) (tryCatch m h))
  end.
  { apply emits_tryCatch_l; [|intros e; adds_with ltac:(reflexivity)].
    apply emits_bind_l; [|intros a; adds_with ltac:(reflexivity)].
    apply attemptLoop_emits; [apply stream_emits_download|].
    adds_with ltac:(reflexivity). }
  match goal with |- context [tryCatch ?m ?h ?w7] =>
    destruct (Hemits w7) as (new & Hnew & Hin)
  end.
  rewrite Hnew. cbn [history]. rewrite HhistV. cbn [history].
  eexists (new ++ _ :: _ :: _ :: newV ++ [_; _; _; _; _]).
  split; [by rewrite <- !app_assoc; cbn; rewrite <- !app_assoc|].
  apply in_or_app. by left.
Qed.
End ValidationTheorem.

(** C5. For every recording URL the validity check answers [true]
    without asking anyone, so the validation step returns [true]; and
    with the State Store answering, a run of the pipeline started with
    that URL reaches the transfer step and requests the recording,
    whatever the provider, the file store and Slack do afterwards, and
    whether or not the URL can still be read. *)
Theorem validation_never_blocks_transfer {E : Env}
    (meetingId url sessionId : string) (w : World) (row : Row) :
  storeAvailable E ->
  meetings w !! meetingId = Some row ->
  url <> "" ->
  (forall w0,
     (chatterboxService.isRecordingUrlValid url w0).1 = Ok true
     /\ history (chatterboxService.isRecordingUrlValid url w0).2
        = [EvLog info "Recording URL validation result";
           EvLog warn "URL validation is deprecated - always returning true"] ++ history w0)
  /\ (exists w',
        meetingService.processStep meetingId "validate_recording_url"
          (chatterboxService.isRecordingUrlValid url) 3 w = (Ok (Some true), w'))
  /\ (exists new,
        history (meetingService.processRecordingUrgently meetingId (Some url) sessionId w).2
        = new ++ history w
        /\ In (EvHttpGet url) new).
Proof.
  intros Hdb Hrow Hurl. split; [|split].
  - intros w0. split; reflexivity.
  - destruct (validate_step_ok meetingId url w row Hdb Hrow) as (w' & Hrun & _). eauto.
  - by eapply pipeline_downloads.
Qed.

Lemma validation_never_blocks_transfer_witness :
  storeAvailable Samples.expiredEnv
  /\ meetings Samples.completedWorld !! "m1" = Some (Samples.meetingRow "completed" (VText "s1") 0)
  /\ Samples.recordingUrl <> ""
  /\ exists new,
       history (meetingService.processRecordingUrgently (E:=Samples.expiredEnv) "m1"
                  (Some Samples.recordingUrl) "s1" Samples.completedWorld).2
       = new ++ history Samples.completedWorld
       /\ In (EvHttpGet Samples.recordingUrl) new.
Proof.
  assert (H1 : storeAvailable Samples.expiredEnv) by (intros h; reflexivity).
  assert (H2 : meetings Samples.completedWorld !! "m1"
               = Some (Samples.meetingRow "completed" (VText "s1") 0)) by reflexivity.
  assert (H3 : Samples.recordingUrl <> "") by discriminate.
  split; [exact H1|]. split; [exact H2|]. split; [exact H3|].
  exact (proj2 (proj2 (validation_never_blocks_transfer (E:=Samples.expiredEnv) "m1"
                         Samples.recordingUrl "s1" Samples.completedWorld _ H1 H2 H3))).
Defined.

(** * C1 *)

Section Trigger.
Context {E : Env}.

Lemma updateMeeting_sends_first meetingId updates w :
  exists later,
    history (databaseService.updateMeeting meetingId updates w).2
    = later ++ EvDb (UpdateMeeting meetingId (<["updated_at" := VTime (now w)]> updates))
      :: history w.
Proof.
  unfold databaseService.updateMeeting, databaseService.updateRow. run.
  destruct (db_fault _); cbn; [by eexists [_]|].
  destruct (meetings w !! meetingId); cbn; by eexists [_].
Qed.

Lemma tryCatch_bind_starts {A B} (m : M A) (k : A -> M B) h w first :
  (exists later, history (m w).2 = later ++ first) ->
  (forall a, Adds anyEvent (k a)) -> (forall e, Adds anyEvent (h e)) ->
  exists later, history (tryCatch (bind m k) h w).2 = later ++ first.
Proof.
  intros [l1 H1] Hk Hh. rewrite tryCatch_run, bind_run.
  destruct (m w) as [[a|e] w1]; cbn [snd] in H1.
  - destruct (Hk a w1) as (n2 & H2 & _). destruct (k a w1) as [[b|e] w2]; cbn [snd] in *.
    + exists (n2 ++ l1). by rewrite H2, H1, app_assoc.
    + destruct (Hh e w2) as (n3 & H3 & _). exists (n3 ++ n2 ++ l1).
      by rewrite H3, H2, H1, !app_assoc.
  - destruct (Hh e w1) as (n3 & H3 & _). exists (n3 ++ l1). by rewrite H3, H1, app_assoc.
Qed.

Lemma trigger_updates_first meetingId recordingUrl sessionId w :
  exists later,
    history (meetingService.processRecordingUrgently meetingId recordingUrl sessionId w).2
    = later
      ++ EvDb (UpdateMeeting meetingId
                 (<["updated_at" := VTime (now w)]>
                    (meetingService.processingUpdates recordingUrl (now w))))
      :: EvLog info "Meeting urgent_processing_started" :: history w.
Proof.
  unfold meetingService.processRecordingUrgently.
  rewrite bind_run. cbn [dateNow readWorld].
  unfold meetingService.processRecordingUrgently_try.
  erewrite tryCatch_bind_ok by reflexivity.
  erewrite tryCatch_bind_ok by reflexivity.
  apply tryCatch_bind_starts.
  - apply updateMeeting_sends_first.
  - intros a. adds_with ltac:(reflexivity).
  - intros e. adds_with ltac:(reflexivity).
Qed.
End Trigger.

Section Webhook.
Context {E : Env}.

Lemma webhook_spawns sid url t w row :
  sid <> "" -> t <> 0 ->
  storeAvailable E ->
  databaseService.rowsWhere "chatterbox_session_id" sid (meetings w) = [row] ->
  let payload :=
    {| webhookController.payload_sessionId := Some sid;
       webhookController.payload_recordingUrl := url;
       webhookController.payload_timestamp := Some t |} in
  let r := webhookController.handleChatterBoxWebhook "finished" payload w in
  (exists resp, r.1 = Ok resp /\ webhookController.http_status resp = 200)
  /\ meetings r.2 = meetings w
  /\ history r.2
     = EvSpawn (ProcessRecordingUrgently (default "" (text_of row "id"))
                  (if Js.truthy url then url else None) sid
                  "URGENT: Recording processing failed within 5-minute window")
       :: EvLog info "Meeting recording_finished"
       :: EvDb (SelectMeetingBySessionId sid)
       :: EvLog info "ChatterBox webhook_received: " :: history w.
Proof.
  intros Hsid Ht Hdb Hrows. cbn zeta.
  destruct sid as [|c sid']; [done|].
  unfold webhookController.handleChatterBoxWebhook, webhookController.validateWebhookPayload,
    webhookController.respond, databaseService.getMeetingBySessionId,
    databaseService.selectBySessionId.
  run. cbn.
  destruct (t =? 0) eqn:Hz; [lia|]. cbn.
  rewrite Hdb. cbn. rewrite Hrows. cbn. eauto.
Qed.
End Webhook.

(** C1, as the code has it.  [processRecordingUrgently] looks at no
    status: whatever the meeting's status, the first statement it sends
    to the State Store is the update to [status = 'processing'] with the
    recording URL and the start time, and where the store takes it the
    meeting is [processing] from then on, whatever it was before; and
    the webhook handler starts [processRecordingUrgently] for the
    meeting found for the session, whatever its status. *)
Theorem finished_trigger_has_no_status_guard {E : Env}
    (meetingId : string) (recordingUrl : option string) (sessionId : string)
    (w : World) :
  (exists later,
     history (meetingService.processRecordingUrgently meetingId recordingUrl sessionId w).2
     = later
       ++ EvDb (UpdateMeeting meetingId
                  (<["updated_at" := VTime (now w)]>
                     (meetingService.processingUpdates recordingUrl (now w))))
       :: EvLog info "Meeting urgent_processing_started" :: history w)
  /\ (forall row previous,
        storeAvailable E ->
        meetings w !! meetingId = Some row ->
        text_of row "status" = Some previous ->
        exists row' w',
          databaseService.updateMeeting meetingId
            (meetingService.processingUpdates recordingUrl (now w)) w = (Ok row', w')
          /\ meetings w' !! meetingId = Some row'
          /\ text_of row' "status" = Some "processing"
          /\ row' !! "recording_s3_url" = Some (nullable recordingUrl)
          /\ time_of row' "processing_started_at" = Some (now w))
  /\ (forall t row,
        sessionId <> "" -> t <> 0 ->
        storeAvailable E ->
        databaseService.rowsWhere "chatterbox_session_id" sessionId (meetings w) = [row] ->
        let payload :=
          {| webhookController.payload_sessionId := Some sessionId;
             webhookController.payload_recordingUrl := recordingUrl;
             webhookController.payload_timestamp := Some t |} in
        exists rest,
          history (webhookController.handleChatterBoxWebhook "finished" payload w).2
          = EvSpawn (ProcessRecordingUrgently (default "" (text_of row "id"))
                       (if Js.truthy recordingUrl then recordingUrl else None) sessionId
                       "URGENT: Recording processing failed within 5-minute window")
            :: rest).
Proof.
  split; [apply trigger_updates_first|split].
  - intros row previous Hdb Hrow _.
    rewrite (updateMeeting_ok _ _ _ _ Hdb Hrow). do 2 eexists. split; [reflexivity|].
    cbn. split; [apply lookup_insert_eq|].
    split; [by apply updated_text|].
    split; [by apply lookup_union_Some_l|by apply updated_time].
  - intros t row Hsid Ht Hdb Hrows.
    destruct (webhook_spawns sessionId recordingUrl t w row Hsid Ht Hdb Hrows)
      as (_ & _ & Hh).
    cbn zeta. rewrite Hh. eauto.
Qed.

Lemma finished_trigger_has_no_status_guard_witness :
  storeAvailable Samples.expiredEnv
  /\ meetings Samples.completedWorld !! "m1" = Some (Samples.meetingRow "completed" (VText "s1") 0)
  /\ text_of (Samples.meetingRow "completed" (VText "s1") 0) "status" = Some "completed"
  /\ exists row' w',
       databaseService.updateMeeting (E:=Samples.expiredEnv) "m1"
         (meetingService.processingUpdates (Some Samples.recordingUrl)
            (now Samples.completedWorld)) Samples.completedWorld = (Ok row', w')
       /\ meetings w' !! "m1" = Some row'
       /\ text_of row' "status" = Some "processing"
       /\ row' !! "recording_s3_url" = Some (nullable (Some Samples.recordingUrl))
       /\ time_of row' "processing_started_at" = Some (now Samples.completedWorld).
Proof.
  assert (H1 : storeAvailable Samples.expiredEnv) by (intros h; reflexivity).
  assert (H2 : meetings Samples.completedWorld !! "m1"
               = Some (Samples.meetingRow "completed" (VText "s1") 0)) by reflexivity.
  assert (H3 : text_of (Samples.meetingRow "completed" (VText "s1") 0) "status"
               = Some "completed") by reflexivity.
  split; [exact H1|]. split; [exact H2|]. split; [exact H3|].
  exact (proj1 (proj2 (finished_trigger_has_no_status_guard (E:=Samples.expiredEnv) "m1"
                         (Some Samples.recordingUrl) "s1" Samples.completedWorld))
           _ _ H1 H2 H3).
Defined.

(** C1, as stated, fails: a second [finished] trigger for a meeting
    that is [completed] runs the pipeline again; here the recording link
    has expired meanwhile, and the meeting ends [failed]. *)
Lemma duplicate_finished_trigger_reprocesses :
  let before := Samples.completedWorld in
  let r := meetingService.processRecordingUrgently (E:=Samples.expiredEnv) "m1"
             (Some Samples.recordingUrl) "s1" before in
  meetingStatus before "m1" = Some "completed"
  /\ r.1 = Throw (Error (fileService.expiredMessage 403))
  /\ meetingStatus r.2 "m1" = Some "failed"
  /\ size (processing_logs r.2) = 2%nat
  /\ In (EvHttpGet Samples.recordingUrl) (history r.2).
Proof. vm_compute. repeat split; try reflexivity. tauto. Qed.

(** * C3 *)

Section Ceiling.
Context {E : Env}.
Import pollCommon.

(** C3, as the code has it.  In the copy of the job that has the
    ceiling, a meeting that has a session id, is [bot_joined] and whose
    age in whole minutes exceeds 180 gets the update to
    [status = 'failed'] with a completion time, and where the store
    takes it the meeting is [failed]; nothing but log lines follows, so
    the provider is not asked and no processing is started; the check
    returns normally. *)
Theorem stale_bot_joined_meeting_is_failed (meeting : Row) (w : World) :
  Js.truthy (text_of meeting "chatterbox_session_id") = true ->
  status_is meeting "bot_joined" = true ->
  olderThan 180 (statusAgeMinutes (now w) meeting) = true ->
  let r := pollStatusJobCeiling.checkMeetingStatus meeting w in
  let update :=
    EvDb (UpdateMeeting (meetingId meeting)
            (<["updated_at" := VTime (now w)]> (meetingService.failedUpdates (now w)))) in
  let warning :=
    EvLog warn "Meeting stuck in bot_joined status for too long, marking as failed" in
  r.1 = Ok tt
  /\ (exists logs, history r.2 = logs ++ update :: warning :: history w
                   /\ forallb isLog logs = true)
  /\ (db_fault (update :: warning :: history w) = None ->
      forall row, meetings w !! meetingId meeting = Some row ->
        exists row', meetings r.2 !! meetingId meeting = Some row'
                     /\ text_of row' "status" = Some "failed"
                     /\ time_of row' "processing_completed_at" = Some (now w)).
Proof.
  intros Hsession Hstatus Hold. cbn zeta.
  unfold pollStatusJobCeiling.checkMeetingStatus.
  rewrite Hsession. cbn [negb]. rewrite tryCatch_run, bind_run. cbn [dateNow readWorld].
  rewrite Hstatus, Hold. cbn [andb].
  unfold databaseService.updateMeeting, databaseService.updateRow. run.
  destruct (db_fault _) as [dbError|] eqn:Hdb; cbn.
  - split; [done|]. split; [by eexists [_; _]|]. cbn in Hdb. congruence.
  - destruct (meetings w !! meetingId meeting) as [row|] eqn:Hrow; cbn.
    + split; [done|]. split; [by eexists [_]|].
      intros _ ? [= <-]. eexists. split; [apply lookup_insert_eq|].
      split; [by apply updated_text|by apply updated_time].
    + split; [done|]. split; [by eexists [_; _]|]. done.
Qed.

(** The copy of the job without the ceiling asks the provider about
    the same meeting, and leaves it as it is. *)
Lemma job_without_ceiling_requeries (meeting : Row) (w : World) :
  Js.truthy (text_of meeting "chatterbox_session_id") = true ->
  status_is meeting "bot_joined" = true ->
  olderThan 180 (statusAgeMinutes (now w) meeting) = true ->
  let r := pollStatusJob.checkMeetingStatus meeting w in
  meetings r.2 = meetings w
  /\ exists new, history r.2 = new ++ history w
                 /\ In (EvGetSession (sessionId meeting)) new.
Proof.
  intros Hsession Hstatus Hold. cbn zeta.
  assert (Hten : olderThan 10 (statusAgeMinutes (now w) meeting) = true).
  { destruct (statusAgeMinutes (now w) meeting) as [a|]; [|done]. cbn in *. lia. }
  assert (Hrec : status_is meeting "recording" = false).
  { unfold status_is in *. destruct (text_of meeting "status") as [s|]; [|done].
    apply String.eqb_eq in Hstatus. by subst. }
  unfold pollStatusJob.checkMeetingStatus.
  rewrite Hsession. cbn [negb]. rewrite tryCatch_run, bind_run. cbn [dateNow readWorld].
  rewrite Hstatus, Hten, Hrec. cbn [andb].
  unfold chatterboxService.getSessionData, chatterboxConfig.getSessionData. run.
  destruct (session_reply _) as [sd|e]; cbn.
  - destruct (Js.truthy (recordingLink sd)); cbn; (split; [done|]).
    + eexists [_; _; _; _; _; _; _; _]. split; [reflexivity|]. cbn. tauto.
    + eexists [_; _; _; _; _; _]. split; [reflexivity|]. cbn. tauto.
  - split; [done|]. eexists [_; _; _; _; _; _; _]. split; [reflexivity|]. cbn. tauto.
Qed.
End Ceiling.

Lemma stale_bot_joined_meeting_is_failed_witness :
  let meeting := Samples.meetingRow "bot_joined" (VText "s1") 0 in
  let w := Samples.worldWith meeting Samples.fourHours in
  Js.truthy (text_of meeting "chatterbox_session_id") = true
  /\ status_is meeting "bot_joined" = true
  /\ pollCommon.olderThan 180 (pollCommon.statusAgeMinutes (now w) meeting) = true
  /\ (pollStatusJobCeiling.checkMeetingStatus (E:=Samples.quietEnv) meeting w).1 = Ok tt.
Proof.
  cbn zeta.
  assert (H1 : Js.truthy (text_of (Samples.meetingRow "bot_joined" (VText "s1") 0)
                            "chatterbox_session_id") = true) by reflexivity.
  assert (H2 : status_is (Samples.meetingRow "bot_joined" (VText "s1") 0) "bot_joined" = true)
    by reflexivity.
  assert (H3 : pollCommon.olderThan 180
                 (pollCommon.statusAgeMinutes
                    (now (Samples.worldWith (Samples.meetingRow "bot_joined" (VText "s1") 0)
                            Samples.fourHours))
                    (Samples.meetingRow "bot_joined" (VText "s1") 0)) = true) by reflexivity.
  split; [exact H1|]. split; [exact H2|]. split; [exact H3|].
  exact (proj1 (stale_bot_joined_meeting_is_failed (E:=Samples.quietEnv) _ _ H1 H2 H3)).
Defined.

(** C3, as stated, fails: a meeting without a session id stays
    [bot_joined] however old it is. *)
Lemma stale_meeting_without_session_is_not_failed :
  let meeting := Samples.meetingRow "bot_joined" VNull 0 in
  let w := Samples.worldWith meeting Samples.fourHours in
  let r := pollStatusJobCeiling.checkMeetingStatus (E:=Samples.quietEnv) meeting w in
  status_is meeting "bot_joined" = true
  /\ pollCommon.olderThan 180 (pollCommon.statusAgeMinutes (now w) meeting) = true
  /\ r.1 = Ok tt
  /\ meetingStatus r.2 "m1" = Some "bot_joined"
  /\ history r.2 = [EvLog warn "Meeting has no ChatterBox session ID"].
Proof. vm_compute. repeat split; reflexivity. Qed.

(** * C9 *)

Lemma forOf_visits_all {A} (body : A -> M unit) (l : list A) (w : World) :
  (forall x w', (body x w').1 = Ok tt) ->
  forOf l body w = (Ok tt, foldl (fun w' x => (body x w').2) w l).
Proof.
  intros Hbody. revert w. induction l as [|x l IH]; intros w; [done|].
  cbn [forOf foldl]. rewrite bind_run. specialize (Hbody x w).
  destruct (body x w) as [[[]|e] w1]; cbn in *; [apply IH|discriminate].
Qed.

Lemma caught_and_logged {A} (m : M A) (h : JsError -> M unit) (k : A -> M unit) w :
  (forall a w', (k a w').1 = Ok tt) ->
  (forall e w', (h e w').1 = Ok tt) ->
  (tryCatch (bind m k) h w).1 = Ok tt.
Proof.
  intros Hk Hh. rewrite tryCatch_run, bind_run.
  destruct (m w) as [[a|e] w1]; [|apply Hh].
  specialize (Hk a w1). destruct (k a w1) as [[[]|e] w2]; cbn in *; [done|apply Hh].
Qed.

Lemma tryCatch_never_throws (m : M unit) (h : JsError -> M unit) w :
  (forall e w', (h e w').1 = Ok tt) -> (tryCatch m h w).1 = Ok tt.
Proof.
  intros Hh. rewrite tryCatch_run. destruct (m w) as [[[]|e] w1]; [done|apply Hh].
Qed.

Section Poller.
Context {E : Env}.
Import pollCommon.

Lemma checkMeetingStatus_never_throws meeting w :
  (pollStatusJob.checkMeetingStatus meeting w).1 = Ok tt.
Proof. apply tryCatch_never_throws. done. Qed.

Lemma checkMeetingStatus_ceiling_never_throws meeting w :
  (pollStatusJobCeiling.checkMeetingStatus meeting w).1 = Ok tt.
Proof. apply tryCatch_never_throws. done. Qed.

Lemma pollMeetingStatuses_never_throws w :
  (pollStatusJob.pollMeetingStatuses w).1 = Ok tt.
Proof. apply tryCatch_never_throws. done. Qed.

Lemma pollMeetingStatuses_ceiling_never_throws w :
  (pollStatusJobCeiling.pollMeetingStatuses w).1 = Ok tt.
Proof.
  apply tryCatch_never_throws. intros e w'.
  by destruct (Js.includes _ _ || Js.includes _ _).
Qed.

Lemma store_down_is_logged w e :
  db_fault (EvDb (SelectMeetingsByStatus "bot_joined" 10) :: history w) = Some e ->
  let r := pollStatusJob.pollMeetingStatuses w in
  meetings r.2 = meetings w
  /\ processing_logs r.2 = processing_logs w
  /\ history r.2 = [EvLog error "Poll status job failed";
                    EvLog error "Failed to get meetings by status";
                    EvDb (SelectMeetingsByStatus "bot_joined" 10)] ++ history w.
Proof.
  intros Hdb. cbn zeta.
  unfold pollStatusJob.pollMeetingStatuses, databaseService.getMeetingsByStatus. run.
  cbn. rewrite Hdb. done.
Qed.

Lemma provider_failure_is_logged meeting w :
  providerDown E ->
  Js.truthy (text_of meeting "chatterbox_session_id") = true ->
  status_is meeting "bot_joined" = true ->
  olderThan 10 (statusAgeMinutes (now w) meeting) = true ->
  let r := pollStatusJob.checkMeetingStatus meeting w in
  r.1 = Ok tt
  /\ meetings r.2 = meetings w
  /\ exists new, history r.2 = new ++ history w
                 /\ In (EvLog error "Failed to get session data for stuck meeting") new.
Proof.
  intros Hdown Hsession Hstatus Hold. cbn zeta.
  assert (Hrec : status_is meeting "recording" = false).
  { unfold status_is in *. destruct (text_of meeting "status") as [s|]; [|done].
    apply String.eqb_eq in Hstatus. by subst. }
  unfold pollStatusJob.checkMeetingStatus.
  rewrite Hsession. cbn [negb]. rewrite tryCatch_run, bind_run. cbn [dateNow readWorld].
  rewrite Hstatus, Hold, Hrec. cbn [andb].
  unfold chatterboxService.getSessionData, chatterboxConfig.getSessionData. run.
  match goal with |- context [session_reply ?h] =>
    destruct (Hdown h) as [e ->] end.
  cbn. split; [done|]. split; [done|].
  eexists [_; _; _; _; _; _; _]. split; [reflexivity|]. cbn. tauto.
Qed.

Lemma cycle_examines_every_meeting w :
  storeAvailable E ->
  let stuckMeetings :=
    take 10 (merge_sort databaseService.newestFirst
               (databaseService.rowsWhere "status" "bot_joined" (meetings w))) in
  let recordingMeetings :=
    take 10 (merge_sort databaseService.newestFirst
               (databaseService.rowsWhere "status" "recording" (meetings w))) in
  let allMeetings := stuckMeetings ++ recordingMeetings in
  let queried :=
    {| meetings := meetings w; processing_logs := processing_logs w;
       history := match allMeetings with
                  | [] => []
                  | _ => [EvLog info "Polling meeting statuses"]
                  end
                  ++ EvDb (SelectMeetingsByStatus "recording" 10)
                  :: EvDb (SelectMeetingsByStatus "bot_joined" 10) :: history w;
       now := now w |} in
  pollStatusJob.pollMeetingStatuses w
  = (Ok tt, foldl (fun w' m => (pollStatusJob.checkMeetingStatus m w').2) queried
              allMeetings).
Proof.
  intros Hdb. cbn zeta.
  unfold pollStatusJob.pollMeetingStatuses, databaseService.getMeetingsByStatus,
    databaseService.selectByStatus.
  rewrite tryCatch_run.
  rewrite bind_run. run. rewrite !Hdb. cbn [fst snd meetings].
  match goal with |- context [?l1 ++ ?l2] => destruct (l1 ++ l2) as [|m ms] eqn:Hall end.
  - reflexivity.
  - by rewrite (forOf_visits_all _ _ _ checkMeetingStatus_never_throws).
Qed.
End Poller.

(** C9. Examining one meeting never throws, so the loop of a cycle
    goes through every meeting that the two queries returned; a failure
    of the provider for one meeting is logged and leaves the tables
    alone; the cycle itself never throws, and when the State Store does
    not answer the failure is logged, twice, and nothing else happens.
    The copy of the job with the ceiling never throws either. *)
Theorem poll_cycle_tolerates_failures {E : Env} (w : World) :
  (forall meeting w', (pollStatusJob.checkMeetingStatus meeting w').1 = Ok tt)
  /\ (forall l,
        forOf l pollStatusJob.checkMeetingStatus w
        = (Ok tt, foldl (fun w' m => (pollStatusJob.checkMeetingStatus m w').2) w l))
  /\ (storeAvailable E ->
      pollStatusJob.pollMeetingStatuses w
      = (Ok tt, foldl (fun w' m => (pollStatusJob.checkMeetingStatus m w').2)
                  (polled w (stuckMeetings w)) (stuckMeetings w)))
  /\ (forall meeting,
        providerDown E ->
        Js.truthy (text_of meeting "chatterbox_session_id") = true ->
        status_is meeting "bot_joined" = true ->
        pollCommon.olderThan 10 (pollCommon.statusAgeMinutes (now w) meeting) = true ->
        let r := pollStatusJob.checkMeetingStatus meeting w in
        r.1 = Ok tt
        /\ meetings r.2 = meetings w
        /\ exists new, history r.2 = new ++ history w
                       /\ In (EvLog error "Failed to get session data for stuck meeting") new)
  /\ (pollStatusJob.pollMeetingStatuses w).1 = Ok tt
  /\ (forall e,
        db_fault (EvDb (SelectMeetingsByStatus "bot_joined" 10) :: history w) = Some e ->
        let r := pollStatusJob.pollMeetingStatuses w in
        meetings r.2 = meetings w
        /\ processing_logs r.2 = processing_logs w
        /\ history r.2 = [EvLog error "Poll status job failed";
                          EvLog error "Failed to get meetings by status";
                          EvDb (SelectMeetingsByStatus "bot_joined" 10)] ++ history w)
  /\ (forall meeting w', (pollStatusJobCeiling.checkMeetingStatus meeting w').1 = Ok tt)
  /\ (pollStatusJobCeiling.pollMeetingStatuses w).1 = Ok tt.
Proof.
  split; [apply checkMeetingStatus_never_throws|].
  split; [intros l; apply forOf_visits_all, checkMeetingStatus_never_throws|].
  split; [apply cycle_examines_every_meeting|].
  split; [intros meeting; apply provider_failure_is_logged|].
  split; [apply pollMeetingStatuses_never_throws|].
  split; [intros e; apply store_down_is_logged|].
  split; [apply checkMeetingStatus_ceiling_never_throws|].
  apply pollMeetingStatuses_ceiling_never_throws.
Qed.

Lemma poll_cycle_tolerates_failures_witness :
  let w := Samples.worldWith (Samples.meetingRow "bot_joined" (VText "s1") 0)
             Samples.fourHours in
  db_fault (Env:=Samples.storeDownEnv)
    (EvDb (SelectMeetingsByStatus "bot_joined" 10) :: history w)
  = Some (Error "fetch failed")
  /\ let r := pollStatusJob.pollMeetingStatuses (E:=Samples.storeDownEnv) w in
     meetings r.2 = meetings w
     /\ processing_logs r.2 = processing_logs w
     /\ history r.2 = [EvLog error "Poll status job failed";
                       EvLog error "Failed to get meetings by status";
                       EvDb (SelectMeetingsByStatus "bot_joined" 10)] ++ history w.
Proof.
  cbn zeta.
  assert (H : db_fault (Env:=Samples.storeDownEnv)
                (EvDb (SelectMeetingsByStatus "bot_joined" 10)
                 :: history (Samples.worldWith (Samples.meetingRow "bot_joined" (VText "s1") 0)
                               Samples.fourHours))
              = Some (Error "fetch failed")) by reflexivity.
  split; [exact H|].
  exact (proj1 (proj2 (proj2 (proj2 (proj2 (proj2
           (poll_cycle_tolerates_failures (E:=Samples.storeDownEnv)
              (Samples.worldWith (Samples.meetingRow "bot_joined" (VText "s1") 0)
                 Samples.fourHours))))))) _ H).
Defined.

(** * C7 *)

Section Retry.
Context {E : Env}.

Lemma retry_rejected id w row :
  meetings w !! id = Some row ->
  status_is row "completed" = true \/ status_is row "processing" = true ->
  let r := webhookController.retryMeetingProcessing id w in
  (exists resp, r.1 = Ok resp
                /\ webhookController.http_success resp = false
                /\ (db_fault (EvDb (SelectMeetingById id) :: history w) = None ->
                    webhookController.http_status resp = 400))
  /\ meetings r.2 = meetings w
  /\ processing_logs r.2 = processing_logs w
  /\ exists new, history r.2 = new ++ history w /\ forallb notSpawn new = true.
Proof.
  intros Hrow Hstatus. cbn zeta.
  unfold webhookController.retryMeetingProcessing, webhookController.respond,
    databaseService.getMeetingById, databaseService.selectById.
  run. cbn [history meetings processing_logs now].
  destruct (db_fault _) as [e|] eqn:Hdb; cbn.
  - destruct (decide (code e = Some "PGRST116")); cbn;
      (split; [eexists; split; [reflexivity|]; split; [reflexivity|]; congruence|]);
      (split; [done|]); (split; [done|]);
      first [by eexists [_] | by eexists [_; _] | by eexists [_; _; _]].
  - rewrite Hrow. cbn.
    destruct (status_is row "completed") eqn:Hc; cbn.
    + split; [eexists; split; [reflexivity|]; split; reflexivity|].
      split; [done|]. split; [done|]. by eexists [_].
    + destruct Hstatus as [Hs|Hs]; [discriminate|]. rewrite Hs. cbn.
      split; [eexists; split; [reflexivity|]; split; reflexivity|].
      split; [done|]. split; [done|]. by eexists [_].
Qed.

Lemma retry_permitted id w row :
  meetings w !! id = Some row ->
  status_is row "completed" = false ->
  status_is row "processing" = false ->
  Js.truthy (text_of row "chatterbox_session_id") = true ->
  db_fault (EvDb (SelectMeetingById id) :: history w) = None ->
  let r := webhookController.retryMeetingProcessing id w in
  (exists resp, r.1 = Ok resp /\ webhookController.http_status resp = 200)
  /\ meetings r.2 = meetings w
  /\ exists log,
       history r.2
       = EvSpawn (RetryProcessing id (default "" (text_of row "chatterbox_session_id"))
                    "Retry processing failed")
         :: log :: EvDb (SelectMeetingById id) :: history w.
Proof.
  intros Hrow Hc Hp Hs Hdb. cbn zeta.
  unfold webhookController.retryMeetingProcessing, webhookController.respond,
    databaseService.getMeetingById, databaseService.selectById.
  run. cbn [history meetings processing_logs now].
  rewrite Hdb. cbn. rewrite Hrow. cbn. rewrite Hc, Hp, Hs. cbn.
  split; [eexists; split; reflexivity|]. split; [reflexivity|]. eexists. reflexivity.
Qed.

Lemma retry_without_locator id sid w :
  noUsableRecording E ->
  let r := meetingService.retryProcessing id sid w in
  (exists e, r.1 = Throw e)
  /\ exists new, history r.2 = new ++ history w /\ forallb retryOnly new = true.
Proof.
  intros Hno. cbn zeta.
  unfold meetingService.retryProcessing, databaseService.updateMeeting,
    databaseService.updateRow, chatterboxService.getSessionData,
    chatterboxConfig.getSessionData.
  run. cbn [history meetings processing_logs now].
  destruct (db_fault _) as [e1|]; cbn;
    [|destruct (meetings w !! id) as [row|]; cbn;
      [match goal with |- context [session_reply ?h] =>
         pose proof (Hno h) as Hn; destruct (session_reply h) as [sd|e2]
       end; cbn; [rewrite Hn; cbn|]|]];
    (destruct (db_fault _) as [e3|]; cbn;
     [|try rewrite lookup_insert_eq; cbn; try (destruct (meetings w !! id); cbn)]);
    (split; [eauto|]);
    first [ by eexists [_; _; _; _]
          | by eexists [_; _; _; _; _]
          | by eexists [_; _; _; _; _; _]
          | by eexists [_; _; _; _; _; _; _]
          | by eexists [_; _; _; _; _; _; _; _]
          | by eexists [_; _; _; _; _; _; _; _; _]
          | by eexists [_; _; _; _; _; _; _; _; _; _]
          | by eexists [_; _; _; _; _; _; _; _; _; _; _]
          | by eexists [_; _; _; _; _; _; _; _; _; _; _; _]
          | by eexists [_; _; _; _; _; _; _; _; _; _; _; _; _]
          | by eexists [_; _; _; _; _; _; _; _; _; _; _; _; _; _] ].
Qed.
End Retry.

Section RetryRuns.
Context {E : Env}.

Lemma getSessionData_emits sid :
  Emits (EvGetSession sid) (chatterboxService.getSessionData sid).
Proof.
  unfold chatterboxService.getSessionData, chatterboxConfig.getSessionData,
    logger.logChatterBoxEvent, logger.log.
  apply emits_tryCatch_l; [|intros e; adds_with ltac:(reflexivity)].
  apply emits_after_emit.
  apply emits_bind_l; [|intros a; adds_with ltac:(reflexivity)].
  apply emits_tryCatch_l; [|intros e; adds_with ltac:(reflexivity)].
  apply emits_after_emit.
  apply emits_bind_l; [apply emits_emit|intros a; adds_with ltac:(reflexivity)].
Qed.

Lemma getSessionData_ok sid sd w :
  (forall h, session_reply h = Ok sd) ->
  exists new,
    chatterboxService.getSessionData sid w
    = (Ok sd, {| meetings := meetings w; processing_logs := processing_logs w;
                 history := new ++ history w; now := now w |}).
Proof.
  intros Hs.
  unfold chatterboxService.getSessionData, chatterboxConfig.getSessionData. run.
  rewrite Hs. by eexists [_; _; _; _; _].
Qed.

Lemma processRecordingUrgently_logs_start id url sid :
  Emits (EvLog info "Meeting urgent_processing_started")
    (meetingService.processRecordingUrgently id url sid).
Proof.
  unfold meetingService.processRecordingUrgently, dateNow.
  apply emits_after_read; intros startTime.
  apply emits_tryCatch_l; [|intros e; adds_with ltac:(reflexivity)].
  unfold meetingService.processRecordingUrgently_try.
  apply emits_bind_l; [apply emits_emit|intros a; adds_with ltac:(reflexivity)].
Qed.

Lemma retry_refetches id sid w row :
  storeAvailable E ->
  meetings w !! id = Some row ->
  exists new, history (meetingService.retryProcessing id sid w).2 = new ++ history w
              /\ In (EvGetSession sid) new.
Proof.
  intros Hdb Hrow. unfold meetingService.retryProcessing.
  erewrite tryCatch_bind_ok by reflexivity.
  erewrite tryCatch_bind_ok by reflexivity.
  erewrite tryCatch_bind_ok by (apply updateMeeting_ok; [exact Hdb|exact Hrow]).
  match goal with |- context [tryCatch ?m ?h ?w3] =>
    assert (Hemits : Emits (EvGetSession sid) (tryCatch m h));
      [|destruct (Hemits w3) as (new & Hnew & Hin)]
  end.
  { apply emits_tryCatch_l; [|intros e; adds_with ltac:(reflexivity)].
    apply emits_bind_l; [apply getSessionData_emits|intros a; adds_with ltac:(reflexivity)]. }
  rewrite Hnew. cbn [history]. eexists (new ++ [_; _; _]).
  split; [by rewrite <- app_assoc|]. apply in_or_app. by left.
Qed.

Lemma retry_with_locator id sid w row sd :
  storeAvailable E ->
  meetings w !! id = Some row ->
  (forall h, session_reply h = Ok sd) ->
  Js.truthy (recordingLink sd) = true ->
  exists new, history (meetingService.retryProcessing id sid w).2 = new ++ history w
              /\ In (EvLog info "Meeting urgent_processing_started") new.
Proof.
  intros Hdb Hrow Hsd Hlink. unfold meetingService.retryProcessing.
  erewrite tryCatch_bind_ok by reflexivity.
  erewrite tryCatch_bind_ok by reflexivity.
  erewrite tryCatch_bind_ok by (apply updateMeeting_ok; [exact Hdb|exact Hrow]).
  match goal with |- context [tryCatch _ _ ?w3] =>
    destruct (getSessionData_ok sid sd w3 Hsd) as (newS & Hget)
  end.
  erewrite tryCatch_bind_ok by exact Hget.
  rewrite Hlink.
  erewrite tryCatch_bind_ok by reflexivity.
  match goal with |- context [tryCatch ?m ?h ?w5] =>
    assert (Hemits : Emits (EvLog info "Meeting urgent_processing_started") (tryCatch m h));
      [|destruct (Hemits w5) as (new & Hnew & Hin)]
  end.
  { apply emits_tryCatch_l; [|intros e; adds_with ltac:(reflexivity)].
    apply processRecordingUrgently_logs_start. }
  rewrite Hnew. cbn [history]. eexists (new ++ _ :: _ :: newS ++ [_; _; _]).
  split; [by rewrite <- !app_assoc; cbn; rewrite <- !app_assoc|].
  apply in_or_app. by left.
Qed.
End RetryRuns.


